(** * Bank-marketing classifier: serving, feature engineering, cleaning,
      preprocessing, tuning and packaging, as a shallow embedding.

    Conventions of the embedding.
    - A Python [float] is idealised as a real number ([R]); NaN and the
      infinities are not represented, and [np.log1p x] is [ln (1 + x)].
    - A [pandas.DataFrame] is its ordered list of named, typed columns.
    - Code that can raise returns a [result]; the exception is a value.
    - The file system is a finite map from path strings to node kinds, the
      process environment a finite map from names to strings. *)

From Stdlib Require Import Reals Lra ZArith Lia List Ascii String DecimalString.
From stdpp Require Import gmap strings list fin_maps.

Import ListNotations.
Local Open Scope string_scope.
Local Open Scope Z_scope.

(** ** Exceptions and fallible computations *)

Inductive exn : Type :=
| HTTPException (status_code : Z) (detail : string)
| FileNotFoundError (msg : string)
| FileExistsError (msg : string)
| NotADirectoryError (msg : string)
| KeyError (key : string)
| TypeError (msg : string)
| IndexError (msg : string)
| AttributeError (msg : string)
| ValueError (msg : string)
| RuntimeError (msg : string).

Inductive result (A : Type) : Type :=
| Ok (a : A)
| Raise (e : exn).

Arguments Ok {A} a.
Arguments Raise {A} e.

Definition rbind {A B : Type} (r : result A) (k : A -> result B) : result B :=
  match r with
  | Ok a => k a
  | Raise e => Raise e
  end.

Notation "'let*' x ':=' r 'in' k" := (rbind r (fun x => k))
  (at level 10, x name, r at level 100, k at level 200).

(** [str(z)] for an integer. *)
Definition str_of_Z (z : Z) : string :=
  DecimalString.NilZero.string_of_int (Z.to_int z).

(** [str(exc)] for the exception classes above: the message, except that
    [KeyError] quotes its key and [HTTPException] prints status and detail. *)
Definition exn_str (e : exn) : string :=
  match e with
  | HTTPException c d => str_of_Z c ++ ": " ++ d
  | FileNotFoundError m | FileExistsError m | NotADirectoryError m => m
  | KeyError k => "'" ++ k ++ "'"
  | TypeError m | IndexError m | AttributeError m => m
  | ValueError m | RuntimeError m => m
  end.

(** ** Data frames *)

(** A column carries its dtype: [int64], [float64] or [object]; an object
    cell is a string or the missing marker ([pd.NA], here [None]). *)
Inductive column : Type :=
| IntCol (cells : list Z)
| FloatCol (cells : list R)
| ObjCol (cells : list (option string)).

Definition DataFrame : Type := list (string * column).

Definition col_len (c : column) : nat :=
  match c with
  | IntCol l => length l
  | FloatCol l => length l
  | ObjCol l => length l
  end.

Definition columns (df : DataFrame) : list string := map fst df.

(** [df[name]] on the right of an assignment. *)
Fixpoint get_col (name : string) (df : DataFrame) : result column :=
  match df with
  | [] => Raise (KeyError name)
  | (n, c) :: rest => if String.eqb n name then Ok c else get_col name rest
  end.

(** [df[name] = col]: replaces the column in place when the name is
    present, appends it as the last column otherwise. *)
Fixpoint set_col (name : string) (col : column) (df : DataFrame) : DataFrame :=
  match df with
  | [] => [(name, col)]
  | (n, c) :: rest =>
      if String.eqb n name then (n, col) :: rest
      else (n, c) :: set_col name col rest
  end.

(** [df.drop(columns=[name])]; raises [KeyError] when the label is absent. *)
Definition drop_col (name : string) (df : DataFrame) : result DataFrame :=
  let* _ := get_col name df in
  Ok (filter (fun nc => negb (String.eqb (fst nc) name)) df).

(** One cell of a frame, for row-wise statements. *)
Inductive value : Type :=
| VInt (z : Z)
| VFloat (r : R)
| VStr (s : string)
| VNA.

Definition col_at (c : column) (i : nat) : option value :=
  match c with
  | IntCol l => VInt <$> l !! i
  | FloatCol l => VFloat <$> l !! i
  | ObjCol l => (fun o => match o with Some s => VStr s | None => VNA end) <$> l !! i
  end.

Definition cell (df : DataFrame) (name : string) (i : nat) : option value :=
  match get_col name df with
  | Ok c => col_at c i
  | Raise _ => None
  end.

(** The number a numeric cell stands for. *)
Definition as_real (v : value) : option R :=
  match v with
  | VInt z => Some (IZR z)
  | VFloat r => Some r
  | _ => None
  end.

Definition is_numeric (c : column) : bool :=
  match c with
  | IntCol _ | FloatCol _ => true
  | ObjCol _ => false
  end.

(** [df.iloc[[i]]]: the single-row frame made of row [i]. *)
Definition col_row (i : nat) (c : column) : column :=
  match c with
  | IntCol l => IntCol (option_list (l !! i))
  | FloatCol l => FloatCol (option_list (l !! i))
  | ObjCol l => ObjCol (option_list (l !! i))
  end.

Definition row_of (i : nat) (df : DataFrame) : DataFrame :=
  map (fun nc => (fst nc, col_row i (snd nc))) df.

(** [len(df)]: the height of the frame, read off its first column. *)
Definition nrows (df : DataFrame) : nat :=
  match df with
  | [] => 0%nat
  | (_, c) :: _ => col_len c
  end.

Definition iloc_row (i : nat) (df : DataFrame) : result DataFrame :=
  if (i <? nrows df)%nat then Ok (row_of i df)
  else Raise (IndexError "positional indexers are out-of-bounds").

(** ** src/features/engineering.py *)

Definition R_gtb (x y : R) : bool := if Rgt_dec x y then true else false.
Definition R_geb (x y : R) : bool := if Rge_dec x y then true else false.

Definition int_of_bool (b : bool) : Z := if b then 1 else 0.

(** [(col > 0).astype(int)] on a numeric column; an object column holds
    strings, and comparing a string with a number raises [TypeError]. *)
Definition gt_zero_astype_int (c : column) : result column :=
  match c with
  | IntCol l => Ok (IntCol (map (fun z => int_of_bool (Z.gtb z 0)) l))
  | FloatCol l => Ok (IntCol (map (fun r => int_of_bool (R_gtb r 0)) l))
  | ObjCol _ => Raise (TypeError "'>' not supported between instances of 'str' and 'int'")
  end.

Definition log1p (x : R) : R := ln (1 + x).

(** [np.log1p(col)] on a numeric column, the result being a float64
    column; an object column has no [log1p] loop and raises [TypeError]. *)
Definition np_log1p (c : column) : result column :=
  match c with
  | IntCol l => Ok (FloatCol (map (fun z => log1p (IZR z)) l))
  | FloatCol l => Ok (FloatCol (map log1p l))
  | ObjCol _ => Raise (TypeError "loop of ufunc does not support argument 0 of type str which has no callable log1p method")
  end.

Definition engineer_features (df : DataFrame) : result DataFrame :=
  let engineered := df in
  let* balance := get_col "balance" engineered in
  let* c := gt_zero_astype_int balance in
  let engineered := set_col "is_balance_positive" c engineered in
  let* campaign := get_col "campaign" engineered in
  let* c := np_log1p campaign in
  let engineered := set_col "log_campaign" c engineered in
  let* duration := get_col "duration" engineered in
  let* c := np_log1p duration in
  let engineered := set_col "log_duration" c engineered in
  let* previous := get_col "previous" engineered in
  let* c := gt_zero_astype_int previous in
  let engineered := set_col "has_previous_contact" c engineered in
  Ok engineered.

(** The names of the four derived columns, in the order they are set. *)
Definition DERIVED_COLS : list string :=
  [ "is_balance_positive"; "log_campaign"; "log_duration"; "has_previous_contact" ].

(** The two tables of the specification's scenarios, and a table that
    already has a column named like a derived one. *)
Definition scenario_negative : DataFrame :=
  [ ("balance", IntCol [-5]); ("campaign", IntCol [0]);
    ("duration", IntCol [0]); ("previous", IntCol [0]) ].

Definition scenario_positive : DataFrame :=
  [ ("balance", IntCol [100]); ("campaign", IntCol [2]);
    ("duration", IntCol [120]); ("previous", IntCol [3]) ].

Definition frame_with_log_campaign : DataFrame :=
  [ ("balance", IntCol [100]); ("campaign", IntCol [2]);
    ("duration", IntCol [120]); ("previous", IntCol [3]);
    ("log_campaign", IntCol [7]) ].

(** A two-row table, for row-wise checks. *)
Definition two_customers : DataFrame :=
  [ ("balance", FloatCol [(-5)%R; 100%R]); ("campaign", IntCol [0; 2]);
    ("duration", IntCol [0; 120]); ("previous", IntCol [0; 3]) ].

(** ** src/data/cleaning.py *)

Definition UNKNOWN_TOKEN : string := "unknown".

(** Python's [str.isspace] on the ASCII range: tab, line feed, vertical tab,
    form feed, carriage return, the four separators 28..31 and the space. *)
Definition is_space (c : ascii) : bool :=
  let n := nat_of_ascii c in
  ((9 <=? n) && (n <=? 13) || (28 <=? n) && (n <=? 32))%nat.

Fixpoint lstrip (s : string) : string :=
  match s with
  | EmptyString => EmptyString
  | String c rest => if is_space c then lstrip rest else s
  end.

Fixpoint rstrip (s : string) : string :=
  match s with
  | EmptyString => EmptyString
  | String c rest =>
      match rstrip rest with
      | EmptyString => if is_space c then EmptyString else String c EmptyString
      | kept => String c kept
      end
  end.

(** [str.strip()] with no argument. *)
Definition strip (s : string) : string := rstrip (lstrip s).

Section Cleaning.

(** [str(x)] for a float, the shortest round-tripping decimal, which the
    reals cannot compute: a parameter of the section. *)
Variable float_repr : R -> string.

(** [col.replace(to_replace, pd.NA)] for a scalar string [to_replace]:
    whole-cell equality; numeric cells never equal a string. *)
Definition replace_col (to_replace : string) (c : column) : column :=
  match c with
  | ObjCol l =>
      ObjCol (map (fun o =>
                     match o with
                     | Some s => if String.eqb s to_replace then None else Some s
                     | None => None
                     end) l)
  | _ => c
  end.

(** [df.replace(to_replace, pd.NA)]. *)
Definition df_replace (to_replace : string) (df : DataFrame) : DataFrame :=
  map (fun nc => (fst nc, replace_col to_replace (snd nc))) df.

(** [col.astype(str)]: every cell becomes its [str]; the missing marker
    becomes the string [<NA>]. *)
Definition astype_str (c : column) : column :=
  match c with
  | IntCol l => ObjCol (map (fun z => Some (str_of_Z z)) l)
  | FloatCol l => ObjCol (map (fun r => Some (float_repr r)) l)
  | ObjCol l =>
      ObjCol (map (fun o => Some (match o with Some s => s | None => "<NA>" end)) l)
  end.

(** [col.str.strip()]: the [.str] accessor exists on object columns only;
    missing cells stay missing. *)
Definition str_strip (c : column) : result column :=
  match c with
  | ObjCol l => Ok (ObjCol (map (option_map strip) l))
  | _ => Raise (AttributeError "Can only use .str accessor with string values!")
  end.

Definition clean_dataset (df : DataFrame) : result DataFrame :=
  let cleaned := df in
  let cleaned := df_replace UNKNOWN_TOKEN cleaned in
  let* y := get_col "y" cleaned in
  let* y := str_strip (astype_str y) in
  let cleaned := set_col "y" y cleaned in
  Ok cleaned.

End Cleaning.

(** A float printer for tables without float labels, a raw table with a
    padded label, and a label that trims to the sentinel token. *)
Definition repr_nan : R -> string := fun _ => "nan".

Definition raw_sample : DataFrame :=
  [ ("job", ObjCol [Some "unknown"; Some "admin."]);
    ("balance", IntCol [-5; 100]);
    ("y", ObjCol [Some " yes"; Some "no "]) ].

Definition padded_unknown_label : DataFrame :=
  [ ("y", ObjCol [Some " unknown "]) ].

(** What whole-cell replacement of the sentinel does to one cell. *)
Definition na_if_unknown (v : value) : value :=
  match v with
  | VStr s => if String.eqb s UNKNOWN_TOKEN then VNA else VStr s
  | other => other
  end.

(** ** src/features/preprocessing.py *)

Definition TARGET_COL : string := "y".

Definition CATEGORICAL_COLS : list string :=
  [ "job"; "marital"; "education"; "default"; "housing"; "loan"; "contact";
    "month"; "poutcome" ].

Definition ORDINAL_COLS : list string := [].

Definition NUMERIC_COLS : list string :=
  [ "age"; "balance"; "day"; "duration"; "campaign"; "pdays"; "previous";
    "log_campaign"; "log_duration"; "is_balance_positive";
    "has_previous_contact" ].

Inductive impute_strategy : Type := Mean | Median | MostFrequent | Constant.

Inductive unknown_policy : Type := UnknownError | UnknownIgnore.

(** The scikit-learn transformers the builder instantiates, with the
    arguments it passes. *)
Inductive transformer : Type :=
| SimpleImputer (strategy : impute_strategy)
| StandardScaler
| OneHotEncoder (handle_unknown : unknown_policy) (sparse_output : bool).

(** [Pipeline(steps=[...])] of transformers: named steps applied in order. *)
Definition TransformPipeline : Type := list (string * transformer).

(** [ColumnTransformer(transformers=[...])]: name, pipeline, columns. *)
Definition ColumnTransformer : Type :=
  list (string * TransformPipeline * list string).

Definition build_preprocessing_pipeline : ColumnTransformer :=
  let numeric_pipeline :=
    [ ("imputer", SimpleImputer Median); ("scaler", StandardScaler) ] in
  let categorical_pipeline :=
    [ ("imputer", SimpleImputer MostFrequent);
      ("encoder", OneHotEncoder UnknownIgnore false) ] in
  let preprocessor :=
    [ ("numeric", numeric_pipeline, NUMERIC_COLS);
      ("categorical", categorical_pipeline, CATEGORICAL_COLS) ] in
  preprocessor.

(** The transformers a column goes through: those of the first entry of
    the column transformer that lists the column. *)
Fixpoint steps_for (col : string) (ct : ColumnTransformer) : option (list transformer) :=
  match ct with
  | [] => None
  | (_, pipeline, cols) :: rest =>
      if existsb (String.eqb col) cols then Some (map snd pipeline)
      else steps_for col rest
  end.

(** [OneHotEncoder.transform] on one cell, after fitting on [categories]:
    one indicator per known category; a value outside the categories
    raises under [handle_unknown="error"] and is encoded as all zeros under
    [handle_unknown="ignore"]. *)
Definition one_hot_transform (handle_unknown : unknown_policy)
    (categories : list string) (v : string) : result (list Z) :=
  if existsb (String.eqb v) categories then
    Ok (map (fun c => int_of_bool (String.eqb c v)) categories)
  else
    match handle_unknown with
    | UnknownIgnore => Ok (map (fun _ => 0) categories)
    | UnknownError => Raise (ValueError "Found unknown categories during transform")
    end.

(** [series.map({"yes": 1, "no": 0})]: a value that is not a key maps to
    the missing marker. *)
Definition map_target (c : column) : list (option Z) :=
  match c with
  | ObjCol l =>
      map (fun o =>
             match o with
             | Some s =>
                 if String.eqb s "yes" then Some 1
                 else if String.eqb s "no" then Some 0
                 else None
             | None => None
             end) l
  | IntCol l => map (fun _ => None) l
  | FloatCol l => map (fun _ => None) l
  end.

Definition split_features_target (df : DataFrame)
  : result (DataFrame * list (option Z)) :=
  let* dropped := drop_col TARGET_COL df in
  let* features := engineer_features dropped in
  let* y := get_col TARGET_COL df in
  let target := map_target y in
  Ok (features, target).

(** The target value of a label once trimmed. *)
Definition target_of_label (s : string) : option Z :=
  if String.eqb (strip s) "yes" then Some 1
  else if String.eqb (strip s) "no" then Some 0
  else None.

(** A raw table with padded labels and the four source columns. *)
Definition raw_customers : DataFrame :=
  [ ("job", ObjCol [Some "unknown"; Some "admin."]);
    ("balance", IntCol [-5; 100]); ("campaign", IntCol [0; 2]);
    ("duration", IntCol [0; 120]); ("previous", IntCol [0; 3]);
    ("y", ObjCol [Some " yes"; Some "no "]) ].

(** ** src/training/train.py *)

Record LogisticRegression : Type :=
  { solver : string; max_iter : Z }.

Inductive pipeline_step : Type :=
| Preprocessor (ct : ColumnTransformer)
| Classifier (clf : LogisticRegression).

Definition Pipeline : Type := list (string * pipeline_step).

Definition build_training_pipeline : Pipeline :=
  let preprocessor := build_preprocessing_pipeline in
  let classifier := {| solver := "lbfgs"; max_iter := 1000 |} in
  let pipeline :=
    [ ("preprocessor", Preprocessor preprocessor); ("model", Classifier classifier) ] in
  pipeline.

Inductive param_value : Type :=
| PFloat (r : R)
| PStr (s : string).

(** One configuration of the search: a value for each searched parameter. *)
Definition params : Type := list (string * param_value).

Record GridSearchCV : Type :=
  { estimator : Pipeline;
    param_grid : list (string * list param_value);
    scoring : string;
    n_jobs : Z;
    cv : Z;
    verbose : Z }.

(** [ParameterGrid(param_grid)]: the Cartesian product of the value lists,
    the first key varying slowest (the keys of the grid below are already
    in sorted order, as scikit-learn sorts them). *)
Fixpoint parameter_grid (grid : list (string * list param_value)) : list params :=
  match grid with
  | [] => [[]]
  | (k, vs) :: rest =>
      flat_map (fun v => map (cons (k, v)) (parameter_grid rest)) vs
  end.

(** The values the grid lists for one parameter. *)
Fixpoint grid_values (name : string) (grid : list (string * list param_value))
  : list param_value :=
  match grid with
  | [] => []
  | (k, vs) :: rest => if String.eqb k name then vs else grid_values name rest
  end.

(** The first configuration with the highest score: scikit-learn ranks by
    mean test score and takes the first of rank one. *)
Fixpoint best_candidate (score : params -> R) (best : params) (rest : list params)
  : params :=
  match rest with
  | [] => best
  | c :: rest' =>
      if Rgt_dec (score c) (score best) then best_candidate score c rest'
      else best_candidate score best rest'
  end.

Record FittedSearch : Type :=
  { search : GridSearchCV;
    best_params_ : params;
    best_score_ : R }.

Section Training.

(** The mean cross-validated score scikit-learn computes for one
    configuration: the scorer name, the number of folds, the estimator,
    the configuration and the training data. *)
Variable mean_test_score :
  string -> Z -> Pipeline -> params -> DataFrame -> list (option Z) -> R.

(** [GridSearchCV.fit]. *)
Definition grid_search_fit (gs : GridSearchCV) (X : DataFrame)
    (y : list (option Z)) : result FittedSearch :=
  let score := fun ps => mean_test_score (scoring gs) (cv gs) (estimator gs) ps X y in
  match parameter_grid (param_grid gs) with
  | [] => Raise (ValueError "No fits were performed.")
  | c :: rest =>
      let best := best_candidate score c rest in
      Ok {| search := gs; best_params_ := best; best_score_ := score best |}
  end.

Definition perform_hyperparameter_tuning (pipeline : Pipeline)
    (X_train : DataFrame) (y_train : list (option Z)) : result FittedSearch :=
  let param_grid :=
    [ ("model__C", [PFloat 0.1; PFloat 1.0; PFloat 10.0]);
      ("model__penalty", [PStr "l2"]) ] in
  let grid_search :=
    {| estimator := pipeline;
       param_grid := param_grid;
       scoring := "roc_auc";
       n_jobs := -1;
       cv := 5;
       verbose := 2 |} in
  grid_search_fit grid_search X_train y_train.

End Training.

(** A scorer that cannot tell configurations apart. *)
Definition flat_score : string -> Z -> Pipeline -> params -> DataFrame -> list (option Z) -> R :=
  fun _ _ _ _ _ _ => 0.5%R.

(** ** app/main.py *)

Record CustomerFeatures : Type :=
  { age : Z; job : string; marital : string; education : string;
    default : string; balance : R; housing : string; loan : string;
    contact : string; day : Z; month : string; duration : Z; campaign : Z;
    pdays : Z; previous : Z; poutcome : string }.

(** [payload.model_dump()]: the fields in declaration order. *)
Definition model_dump (p : CustomerFeatures) : list (string * value) :=
  [ ("age", VInt (age p)); ("job", VStr (job p)); ("marital", VStr (marital p));
    ("education", VStr (education p)); ("default", VStr (default p));
    ("balance", VFloat (balance p)); ("housing", VStr (housing p));
    ("loan", VStr (loan p)); ("contact", VStr (contact p)); ("day", VInt (day p));
    ("month", VStr (month p)); ("duration", VInt (duration p));
    ("campaign", VInt (campaign p)); ("pdays", VInt (pdays p));
    ("previous", VInt (previous p)); ("poutcome", VStr (poutcome p)) ].

Definition singleton_col (v : value) : column :=
  match v with
  | VInt z => IntCol [z]
  | VFloat r => FloatCol [r]
  | VStr s => ObjCol [Some s]
  | VNA => ObjCol [None]
  end.

(** [pd.DataFrame([record])]: one row, one column per key. *)
Definition frame_of_record (record : list (string * value)) : DataFrame :=
  map (fun kv => (fst kv, singleton_col (snd kv))) record.

(** The fitted pipeline, seen through the one method the server calls:
    per row, the list of class probabilities. *)
Record Model : Type :=
  { predict_proba : DataFrame -> result (list (list R)) }.

Inductive node : Type := Dir | File.

(** What the server reads from its surroundings at start-up. *)
Record World : Type :=
  { environ : gmap string string;
    fs : gmap string node;
    BASE_DIR : string;
    mlflow_load_model : string -> result Model }.

Definition path_join (a b : string) : string := a ++ "/" ++ b.

Definition MODEL_DIR (base_dir : string) : string := path_join base_dir "models".

Definition is_dir (files : gmap string node) (p : string) : bool :=
  match files !! p with
  | Some Dir => true
  | _ => false
  end.

Definition path_exists (files : gmap string node) (p : string) : bool :=
  match files !! p with
  | Some _ => true
  | None => false
  end.

(** [os.getenv(name)] followed by the truth test [if value:]: unset and
    empty both count as absent. *)
Definition getenv_nonempty (w : World) (name : string) : option string :=
  match environ w !! name with
  | Some EmptyString => None
  | other => other
  end.

(** A candidate is a [Path] or a plain URI string. *)
Inductive candidate : Type :=
| CPath (p : string)
| CUri (uri : string).

Definition load_candidates (w : World) : list candidate :=
  let candidates := [] in
  let candidates :=
    match getenv_nonempty w "MODEL_LOCAL_PATH" with
    | Some env_local => (candidates ++ [CPath env_local])%list
    | None => candidates
    end in
  let candidates :=
    match getenv_nonempty w "MODEL_URI" with
    | Some env_uri => (candidates ++ [CUri env_uri])%list
    | None => candidates
    end in
  (candidates ++
     [ CPath "model/bank_marketing_model";
       CPath "model";
       CPath (path_join (MODEL_DIR (BASE_DIR w)) "bank_marketing_model") ])%list.

(** [f"{last_exception}"]. *)
Definition format_last (last_exception : option exn) : string :=
  match last_exception with
  | Some exc => exn_str exc
  | None => "None"
  end.

(** The [for] loop of [_load_model]; [calls] records, in order, the
    arguments [mlflow.sklearn.load_model] has been called with. *)
Fixpoint load_loop (w : World) (candidates : list candidate)
    (last_exception : option exn) (calls : list string)
  : result Model * list string :=
  match candidates with
  | [] =>
      (Raise (HTTPException 500
                ("Model could not be loaded. Last error: " ++ format_last last_exception)),
       calls)
  | CPath p :: rest =>
      if is_dir (fs w) p then
        match mlflow_load_model w p with
        | Ok m => (Ok m, (calls ++ [p])%list)
        | Raise exc => load_loop w rest (Some exc) (calls ++ [p])%list
        end
      else if path_exists (fs w) p then
        match mlflow_load_model w p with
        | Ok m => (Ok m, (calls ++ [p])%list)
        | Raise exc => load_loop w rest (Some exc) (calls ++ [p])%list
        end
      else load_loop w rest last_exception calls
  | CUri uri :: rest =>
      match mlflow_load_model w uri with
      | Ok m => (Ok m, (calls ++ [uri])%list)
      | Raise exc => load_loop w rest (Some exc) (calls ++ [uri])%list
      end
  end.

Definition _load_model (w : World) : result Model * list string :=
  load_loop w (load_candidates w) None [].

(** What one candidate amounts to, in the words of the specification: it
    loads a model, it fails with an exception, or (a path with nothing
    behind it) it is passed over. *)
Inductive outcome : Type :=
| Loaded (m : Model)
| Failed (e : exn)
| Skipped.

Definition attempt (w : World) (c : candidate) : outcome :=
  match c with
  | CPath p =>
      if path_exists (fs w) p then
        match mlflow_load_model w p with
        | Ok m => Loaded m
        | Raise e => Failed e
        end
      else Skipped
  | CUri uri =>
      match mlflow_load_model w uri with
      | Ok m => Loaded m
      | Raise e => Failed e
      end
  end.

(** The model of the first candidate, in order, that loads. *)
Fixpoint first_loaded (w : World) (cands : list candidate) : option Model :=
  match cands with
  | [] => None
  | c :: rest =>
      match attempt w c with
      | Loaded m => Some m
      | _ => first_loaded w rest
      end
  end.

(** The failure of the last candidate, in order, that failed. *)
Fixpoint last_failure (w : World) (cands : list candidate) : option exn :=
  match cands with
  | [] => None
  | c :: rest =>
      match last_failure w rest with
      | Some e => Some e
      | None =>
          match attempt w c with
          | Failed e => Some e
          | _ => None
          end
      end
  end.

(** The candidates an environment variable contributes. *)
Definition env_candidate (w : World) (name : string) (mk : string -> candidate)
  : list candidate :=
  match getenv_nonempty w name with
  | Some v => [mk v]
  | None => []
  end.

Definition DEFAULT_CANDIDATES (base_dir : string) : list candidate :=
  [ CPath "model/bank_marketing_model";
    CPath "model";
    CPath (path_join (MODEL_DIR base_dir) "bank_marketing_model") ].

(** The error of [_load_model] for a given last exception. *)
Definition load_failure (last_exception : option exn) : exn :=
  HTTPException 500
    ("Model could not be loaded. Last error: " ++ format_last last_exception).

(** A machine with no override set and no model on disk. *)
Definition bare_world : World :=
  {| environ := ∅;
     fs := ∅;
     BASE_DIR := "/srv/app";
     mlflow_load_model := fun uri => Raise (RuntimeError ("No such model: " ++ uri)) |}.

(** The module-level [model_instance], [None] until start-up has run. *)
Definition initial_model_instance : option Model := None.

Definition load_model_on_startup (w : World) : result (option Model) :=
  let* m := fst (_load_model w) in
  Ok (Some m).

Record Prediction : Type :=
  { probability : R; prediction : Z }.

(** [seq[i]] on a list. *)
Definition getitem {A : Type} (l : list A) (i : nat) : result A :=
  match l !! i with
  | Some a => Ok a
  | None => Raise (IndexError "list index out of range")
  end.

Definition predict (model_instance : option Model) (payload : CustomerFeatures)
  : result Prediction :=
  match model_instance with
  | None => Raise (HTTPException 500 "Model not available.")
  | Some model =>
      let data_frame := frame_of_record (model_dump payload) in
      let* data_frame := engineer_features data_frame in
      let* proba := predict_proba model data_frame in
      let* row := getitem proba 0 in
      let* prediction_proba := getitem row 1 in
      let prediction_label := int_of_bool (R_geb prediction_proba 0.5) in
      Ok {| probability := prediction_proba; prediction := prediction_label |}
  end.

(** The engineered single-row input of a request: the request's frame
    followed by its four derived cells. *)
Definition engineered_request (payload : CustomerFeatures) : DataFrame :=
  (frame_of_record (model_dump payload) ++
     [ ("is_balance_positive", IntCol [int_of_bool (R_gtb (balance payload) 0)]);
       ("log_campaign", FloatCol [log1p (IZR (campaign payload))]);
       ("log_duration", FloatCol [log1p (IZR (duration payload))]);
       ("has_previous_contact", IntCol [int_of_bool (Z.gtb (previous payload) 0)]) ])%list.

(** A request and a fitted pipeline that answers one half for every row. *)
Definition sample_request : CustomerFeatures :=
  {| age := 41; job := "admin."; marital := "married"; education := "secondary";
     default := "no"; balance := 100; housing := "yes"; loan := "no";
     contact := "cellular"; day := 5; month := "may"; duration := 120;
     campaign := 2; pdays := -1; previous := 3; poutcome := "unknown" |}.

Definition coin_model : Model :=
  {| predict_proba := fun df => Ok (map (fun _ => [0.5%R; 0.5%R]) (seq 0 (nrows df))) |}.

(** A fitted pipeline whose call fails, and one that returns a single
    probability per row. *)
Definition failing_model : Model :=
  {| predict_proba := fun _ => Raise (ValueError "Input contains NaN.") |}.

Definition one_class_model : Model :=
  {| predict_proba := fun df => Ok (map (fun _ => [1%R]) (seq 0 (nrows df))) |}.

(** A machine with the local override set to a directory that loads. *)
Definition overridden_world : World :=
  {| environ := {[ "MODEL_LOCAL_PATH" := "/opt/model" ]};
     fs := {[ "/opt/model" := Dir ]};
     BASE_DIR := "/srv/app";
     mlflow_load_model := fun uri =>
       if String.eqb uri "/opt/model" then Ok coin_model
       else Raise (RuntimeError ("No such model: " ++ uri)) |}.

(** The load call on [uri] raised. *)
Definition load_raised (w : World) (uri : string) : Prop :=
  exists e : exn, mlflow_load_model w uri = Raise e.

(** [uri] is what a candidate of the list is loaded from: a URI candidate,
    or a path candidate that exists on disk. *)
Definition loadable_candidate (w : World) (cands : list candidate) (uri : string) : Prop :=
  In (CUri uri) cands \/ (In (CPath uri) cands /\ path_exists (fs w) uri = true).

(** ** scripts/package_model.py *)

(** [path.mkdir(parents=True, exist_ok=True)]: fails only when the path is
    an existing non-directory. *)
Definition mkdir_p (d : string) (files : gmap string node)
  : result (gmap string node) :=
  match files !! d with
  | Some File => Raise (FileExistsError d)
  | _ => Ok (<[d := Dir]> files)
  end.

(** [shutil.make_archive(base_name, format, root_dir=...)]: writes
    [base_name.zip] from the directory [root_dir] and returns its name. *)
Definition make_archive (base_name format root_dir : string)
    (files : gmap string node) : result (string * gmap string node) :=
  if String.eqb format "zip" then
    match files !! root_dir with
    | Some Dir =>
        let archive := base_name ++ ".zip" in
        Ok (archive, <[archive := File]> files)
    | _ => Raise (NotADirectoryError root_dir)
    end
  else Raise (ValueError ("unknown archive format '" ++ format ++ "'")).

Module package_model.

(** [main(output_dir)]: the file system after the run and the lines echoed. *)
Definition main (base_dir output_dir : string) (files : gmap string node)
  : result (gmap string node * list string) :=
  let model_path := path_join (MODEL_DIR base_dir) "bank_marketing_model" in
  if negb (path_exists files model_path) then
    Raise (FileNotFoundError
             ("Expected model directory at " ++ model_path
              ++ ". Run scripts/train_model.py first."))
  else
    let* files := mkdir_p output_dir files in
    let archive_path := path_join output_dir "bank_marketing_model" in
    let* made := make_archive archive_path "zip" model_path files in
    Ok (snd made, ["Packaged model at " ++ archive_path ++ ".zip"]).

End package_model.

(** The last character of a string. *)
Fixpoint last_ascii (s : string) : option ascii :=
  match s with
  | EmptyString => None
  | String c EmptyString => Some c
  | String _ rest => last_ascii rest
  end.



(** A machine whose output location is occupied by a regular file. *)
Definition blocked_files : gmap string node :=
  {[ "/srv/app/models/bank_marketing_model" := Dir; "dist" := File ]}.

(** A machine on which training has persisted the model. *)
Definition trained_files : gmap string node :=
  {[ "/srv/app/models/bank_marketing_model" := Dir ]}.

(** ** Lemmas on column access *)

Lemma get_col_set_col_eq (n : string) (c : column) (df : DataFrame) :
  get_col n (set_col n c df) = Ok c.
Proof.
  induction df as [|[m c'] df IH]; simpl.
  - now rewrite String.eqb_refl.
  - destruct (String.eqb m n) eqn:E; simpl; rewrite E; auto.
Qed.

Lemma get_col_set_col_ne (n m : string) (c : column) (df : DataFrame) :
  n <> m -> get_col m (set_col n c df) = get_col m df.
Proof.
  intros Hnm. induction df as [|[k c'] df IH]; simpl.
  - destruct (String.eqb n m) eqn:E; auto.
    apply String.eqb_eq in E. contradiction.
  - destruct (String.eqb k n) eqn:E; simpl.
    + apply String.eqb_eq in E. subst k.
      destruct (String.eqb n m) eqn:E'; auto.
      apply String.eqb_eq in E'. contradiction.
    + now rewrite IH.
Qed.

Lemma set_col_fresh (n : string) (c : column) (df : DataFrame) :
  ~ In n (columns df) -> set_col n c df = (df ++ [(n, c)])%list.
Proof.
  induction df as [|[m c'] df IH]; simpl; intros Hn; auto.
  destruct (String.eqb m n) eqn:E.
  - apply String.eqb_eq in E. tauto.
  - f_equal. apply IH. tauto.
Qed.

Lemma get_col_app_l (n : string) (c : column) (df ext : DataFrame) :
  get_col n df = Ok c -> get_col n (df ++ ext)%list = Ok c.
Proof.
  induction df as [|[m c'] df IH]; simpl; intros H.
  - discriminate.
  - destruct (String.eqb m n); auto.
Qed.

Lemma columns_app (df ext : DataFrame) :
  columns (df ++ ext)%list = (columns df ++ columns ext)%list.
Proof. unfold columns. apply map_app. Qed.

Lemma get_col_In (n : string) (c : column) (df : DataFrame) :
  get_col n df = Ok c -> In n (columns df).
Proof.
  induction df as [|[m c'] df IH]; simpl; intros H.
  - discriminate.
  - destruct (String.eqb m n) eqn:E.
    + apply String.eqb_eq in E. now left.
    + right. auto.
Qed.

(** ** Feature engineering *)

Lemma Zgtb_IZR (z : Z) : Z.gtb z 0 = R_gtb (IZR z) 0.
Proof.
  unfold R_gtb. destruct (Rgt_dec (IZR z) 0) as [H|H].
  - apply Z.gtb_lt. apply lt_IZR. exact H.
  - destruct (Z.gtb z 0) eqn:E; auto.
    apply Z.gtb_lt in E. apply IZR_lt in E. contradiction.
Qed.

Lemma gt_zero_astype_int_spec (c : column) :
  is_numeric c = true ->
  exists l : list Z,
    gt_zero_astype_int c = Ok (IntCol l) /\
    length l = col_len c /\
    forall (i : nat) (v : value) (x : R),
      col_at c i = Some v -> as_real v = Some x ->
      l !! i = Some (if Rgt_dec x 0 then 1 else 0).
Proof.
  destruct c as [l|l|l]; simpl; intros Hnum; try discriminate.
  - eexists; split; [reflexivity|]. split; [apply length_map|].
    intros i v x Hv Hx. rewrite list_lookup_fmap.
    destruct (l !! i) as [z|]; simpl in *; [|discriminate].
    injection Hv as <-. simpl in Hx. injection Hx as <-.
    rewrite Zgtb_IZR. unfold R_gtb. now destruct (Rgt_dec (IZR z) 0).
  - eexists; split; [reflexivity|]. split; [apply length_map|].
    intros i v x Hv Hx. rewrite list_lookup_fmap.
    destruct (l !! i) as [r|]; simpl in *; [|discriminate].
    injection Hv as <-. simpl in Hx. injection Hx as <-.
    unfold R_gtb. now destruct (Rgt_dec r 0).
Qed.

Lemma np_log1p_spec (c : column) :
  is_numeric c = true ->
  exists l : list R,
    np_log1p c = Ok (FloatCol l) /\
    length l = col_len c /\
    forall (i : nat) (v : value) (x : R),
      col_at c i = Some v -> as_real v = Some x ->
      l !! i = Some (ln (1 + x)).
Proof.
  destruct c as [l|l|l]; simpl; intros Hnum; try discriminate.
  - eexists; split; [reflexivity|]. split; [apply length_map|].
    intros i v x Hv Hx. rewrite list_lookup_fmap.
    destruct (l !! i) as [z|]; simpl in *; [|discriminate].
    injection Hv as <-. simpl in Hx. now injection Hx as <-.
  - eexists; split; [reflexivity|]. split; [apply length_map|].
    intros i v x Hv Hx. rewrite list_lookup_fmap.
    destruct (l !! i) as [r|]; simpl in *; [|discriminate].
    injection Hv as <-. simpl in Hx. now injection Hx as <-.
Qed.

(** On a frame with the four numeric source columns and none of the
    derived names, engineering appends the four derived columns. *)
Lemma engineer_features_appends (df : DataFrame) (bal camp dur prev : column)
    (ibp hpc : list Z) (lc ld : list R) :
  get_col "balance" df = Ok bal ->
  get_col "campaign" df = Ok camp ->
  get_col "duration" df = Ok dur ->
  get_col "previous" df = Ok prev ->
  gt_zero_astype_int bal = Ok (IntCol ibp) ->
  np_log1p camp = Ok (FloatCol lc) ->
  np_log1p dur = Ok (FloatCol ld) ->
  gt_zero_astype_int prev = Ok (IntCol hpc) ->
  (forall n : string, In n DERIVED_COLS -> ~ In n (columns df)) ->
  engineer_features df =
    Ok (df ++ [ ("is_balance_positive", IntCol ibp); ("log_campaign", FloatCol lc);
                ("log_duration", FloatCol ld); ("has_previous_contact", IntCol hpc) ])%list.
Proof.
  intros Hb Hc Hd Hp Eb Ec Ed Ep Hfresh.
  unfold engineer_features.
  rewrite Hb. cbn [rbind]. rewrite Eb. cbn [rbind].
  rewrite (set_col_fresh "is_balance_positive") by (apply Hfresh; simpl; tauto).
  rewrite (get_col_app_l _ _ _ _ Hc). cbn [rbind]. rewrite Ec. cbn [rbind].
  rewrite (set_col_fresh "log_campaign").
  2:{ rewrite columns_app, in_app_iff. intros [H|H].
      - revert H. apply Hfresh. simpl; tauto.
      - simpl in H. destruct H as [H|[]]. discriminate. }
  rewrite <- app_assoc.
  rewrite (get_col_app_l _ _ _ _ Hd). cbn [rbind]. rewrite Ed. cbn [rbind].
  rewrite (set_col_fresh "log_duration").
  2:{ rewrite columns_app, in_app_iff. intros [H|H].
      - revert H. apply Hfresh. simpl; tauto.
      - simpl in H. destruct H as [H|[H|[]]]; discriminate. }
  rewrite <- app_assoc.
  rewrite (get_col_app_l _ _ _ _ Hp). cbn [rbind]. rewrite Ep. cbn [rbind].
  rewrite (set_col_fresh "has_previous_contact").
  2:{ rewrite columns_app, in_app_iff. intros [H|H].
      - revert H. apply Hfresh. simpl; tauto.
      - simpl in H. destruct H as [H|[H|[H|[]]]]; discriminate. }
  rewrite <- app_assoc. reflexivity.
Qed.

Lemma ln_1_plus_0 : ln (1 + IZR 0) = 0%R.
Proof. replace (1 + IZR 0)%R with 1%R by lra. apply ln_1. Qed.

(** C2 (amended). For every table whose columns balance, campaign, duration
    and previous are numeric and which has no column named like a derived
    one, [engineer_features] returns the same table followed by exactly
    four new columns of the same height, whose cells are row by row
    is_balance_positive = 1 if balance > 0 else 0, log_campaign =
    ln (1 + campaign), log_duration = ln (1 + duration) and
    has_previous_contact = 1 if previous > 0 else 0; the two scenario
    tables yield 0, 0, 0, 0 and 1, ln 3, ln 121, 1. *)
Theorem engineer_features_spec :
  (forall (df : DataFrame) (bal camp dur prev : column),
      get_col "balance" df = Ok bal ->
      get_col "campaign" df = Ok camp ->
      get_col "duration" df = Ok dur ->
      get_col "previous" df = Ok prev ->
      is_numeric bal = true -> is_numeric camp = true ->
      is_numeric dur = true -> is_numeric prev = true ->
      (forall n : string, In n DERIVED_COLS -> ~ In n (columns df)) ->
      exists (ibp hpc : list Z) (lc ld : list R),
        engineer_features df =
          Ok (df ++ [ ("is_balance_positive", IntCol ibp);
                      ("log_campaign", FloatCol lc);
                      ("log_duration", FloatCol ld);
                      ("has_previous_contact", IntCol hpc) ])%list /\
        (length ibp = col_len bal /\ length lc = col_len camp /\
         length ld = col_len dur /\ length hpc = col_len prev) /\
        (forall (i : nat) (v : value) (x : R),
            col_at bal i = Some v -> as_real v = Some x ->
            ibp !! i = Some (if Rgt_dec x 0 then 1 else 0)) /\
        (forall (i : nat) (v : value) (x : R),
            col_at camp i = Some v -> as_real v = Some x ->
            lc !! i = Some (ln (1 + x))) /\
        (forall (i : nat) (v : value) (x : R),
            col_at dur i = Some v -> as_real v = Some x ->
            ld !! i = Some (ln (1 + x))) /\
        (forall (i : nat) (v : value) (x : R),
            col_at prev i = Some v -> as_real v = Some x ->
            hpc !! i = Some (if Rgt_dec x 0 then 1 else 0))) /\
  engineer_features scenario_negative =
    Ok (scenario_negative ++
          [ ("is_balance_positive", IntCol [0]); ("log_campaign", FloatCol [0%R]);
            ("log_duration", FloatCol [0%R]); ("has_previous_contact", IntCol [0]) ])%list /\
  engineer_features scenario_positive =
    Ok (scenario_positive ++
          [ ("is_balance_positive", IntCol [1]); ("log_campaign", FloatCol [ln 3]);
            ("log_duration", FloatCol [ln 121]); ("has_previous_contact", IntCol [1]) ])%list.
Proof.
  split; [|split].
  - intros df bal camp dur prev Hb Hc Hd Hp Nb Nc Nd Np Hfresh.
    destruct (gt_zero_astype_int_spec bal Nb) as (ibp & Eb & Lb & Rb).
    destruct (np_log1p_spec camp Nc) as (lc & Ec & Lc & Rc).
    destruct (np_log1p_spec dur Nd) as (ld & Ed & Ld & Rd).
    destruct (gt_zero_astype_int_spec prev Np) as (hpc & Ep & Lp & Rp).
    exists ibp, hpc, lc, ld. split.
    + now apply (engineer_features_appends df bal camp dur prev).
    + repeat split; assumption.
  - unfold engineer_features, scenario_negative; cbn -[ln Rplus IZR].
    unfold log1p. rewrite ln_1_plus_0. reflexivity.
  - unfold engineer_features, scenario_positive; cbn -[ln Rplus IZR].
    unfold log1p.
    replace (1 + 2)%R with 3%R by lra. replace (1 + 120)%R with 121%R by lra.
    reflexivity.
Qed.

(** The general part of [engineer_features_spec] applied to the second
    scenario table. *)
Lemma engineer_features_spec_witness :
  exists (ibp hpc : list Z) (lc ld : list R),
    engineer_features scenario_positive =
      Ok (scenario_positive ++
            [ ("is_balance_positive", IntCol ibp); ("log_campaign", FloatCol lc);
              ("log_duration", FloatCol ld); ("has_previous_contact", IntCol hpc) ])%list /\
    ibp !! 0%nat = Some (if Rgt_dec 100 0 then 1 else 0) /\
    lc !! 0%nat = Some (ln (1 + 2)) /\
    ld !! 0%nat = Some (ln (1 + 120)) /\
    hpc !! 0%nat = Some (if Rgt_dec 3 0 then 1 else 0).
Proof.
  destruct (proj1 engineer_features_spec scenario_positive
              (IntCol [100]) (IntCol [2]) (IntCol [120]) (IntCol [3])
              eq_refl eq_refl eq_refl eq_refl eq_refl eq_refl eq_refl eq_refl)
    as (ibp & hpc & lc & ld & E & _ & Rb & Rc & Rd & Rp).
  - intros n Hn Hin. simpl in Hn, Hin.
    repeat (destruct Hn as [<-|Hn]; [repeat (destruct Hin as [Hin|Hin]; try discriminate); exact Hin|]).
    exact Hn.
  - exists ibp, hpc, lc, ld. split; [exact E|].
    split; [exact (Rb 0%nat (VInt 100) _ eq_refl eq_refl)|].
    split; [exact (Rc 0%nat (VInt 2) _ eq_refl eq_refl)|].
    split; [exact (Rd 0%nat (VInt 120) _ eq_refl eq_refl)|].
    exact (Rp 0%nat (VInt 3) _ eq_refl eq_refl).
Defined.

(** C2 as stated fails on a table that already has a column named
    log_campaign: the column is overwritten in place, so the result is not
    the input followed by four new columns. *)
Lemma engineer_features_overwrites_existing :
  ~ exists (n1 n2 n3 n4 : string) (c1 c2 c3 c4 : column),
      engineer_features frame_with_log_campaign =
        Ok (frame_with_log_campaign ++ [ (n1, c1); (n2, c2); (n3, c3); (n4, c4) ])%list.
Proof.
  intros (n1 & n2 & n3 & n4 & c1 & c2 & c3 & c4 & H).
  unfold engineer_features, frame_with_log_campaign in H.
  cbn -[ln Rplus IZR] in H.
  injection H as H. discriminate H.
Qed.

(** ** Row independence of feature engineering *)

Lemma get_col_row_of (i : nat) (n : string) (df : DataFrame) (c : column) :
  get_col n df = Ok c -> get_col n (row_of i df) = Ok (col_row i c).
Proof.
  induction df as [|[m c'] df IH]; simpl; intros H.
  - discriminate.
  - destruct (String.eqb m n).
    + now injection H as ->.
    + auto.
Qed.

Lemma set_col_row_of (i : nat) (n : string) (c : column) (df : DataFrame) :
  set_col n (col_row i c) (row_of i df) = row_of i (set_col n c df).
Proof.
  induction df as [|[m c'] df IH]; simpl.
  - reflexivity.
  - destruct (String.eqb m n); simpl.
    + reflexivity.
    + now rewrite IH.
Qed.

Lemma option_list_fmap {A B : Type} (f : A -> B) (o : option A) :
  option_list (f <$> o) = map f (option_list o).
Proof. now destruct o. Qed.

Lemma gt_zero_astype_int_row (i : nat) (c c' : column) :
  gt_zero_astype_int c = Ok c' ->
  gt_zero_astype_int (col_row i c) = Ok (col_row i c').
Proof.
  destruct c as [l|l|l]; simpl; intros H; try discriminate;
    injection H as <-; simpl; rewrite list_lookup_fmap, option_list_fmap;
    reflexivity.
Qed.

Lemma np_log1p_row (i : nat) (c c' : column) :
  np_log1p c = Ok c' -> np_log1p (col_row i c) = Ok (col_row i c').
Proof.
  destruct c as [l|l|l]; simpl; intros H; try discriminate;
    injection H as <-; simpl; rewrite list_lookup_fmap, option_list_fmap;
    reflexivity.
Qed.

Lemma engineer_features_row_of (i : nat) (df out : DataFrame) :
  engineer_features df = Ok out ->
  engineer_features (row_of i df) = Ok (row_of i out).
Proof.
  unfold engineer_features. intros H.
  destruct (get_col "balance" df) as [bal|] eqn:Hb; [|discriminate].
  cbn [rbind] in H.
  destruct (gt_zero_astype_int bal) as [ibp|] eqn:Eb; [|discriminate].
  cbn [rbind] in H.
  destruct (get_col "campaign" (set_col "is_balance_positive" ibp df))
    as [camp|] eqn:Hc; [|discriminate].
  cbn [rbind] in H.
  destruct (np_log1p camp) as [lc|] eqn:Ec; [|discriminate].
  cbn [rbind] in H.
  destruct (get_col "duration" (set_col "log_campaign" lc _))
    as [dur|] eqn:Hd; [|discriminate].
  cbn [rbind] in H.
  destruct (np_log1p dur) as [ld|] eqn:Ed; [|discriminate].
  cbn [rbind] in H.
  destruct (get_col "previous" (set_col "log_duration" ld _))
    as [prev|] eqn:Hp; [|discriminate].
  cbn [rbind] in H.
  destruct (gt_zero_astype_int prev) as [hpc|] eqn:Ep; [|discriminate].
  cbn [rbind] in H. injection H as <-.
  rewrite (get_col_row_of i _ _ _ Hb). cbn [rbind].
  rewrite (gt_zero_astype_int_row i _ _ Eb). cbn [rbind].
  rewrite set_col_row_of.
  rewrite (get_col_row_of i _ _ _ Hc). cbn [rbind].
  rewrite (np_log1p_row i _ _ Ec). cbn [rbind].
  rewrite set_col_row_of.
  rewrite (get_col_row_of i _ _ _ Hd). cbn [rbind].
  rewrite (np_log1p_row i _ _ Ed). cbn [rbind].
  rewrite set_col_row_of.
  rewrite (get_col_row_of i _ _ _ Hp). cbn [rbind].
  rewrite (gt_zero_astype_int_row i _ _ Ep). cbn [rbind].
  rewrite set_col_row_of. reflexivity.
Qed.

Lemma col_at_col_row (i : nat) (c : column) :
  col_at (col_row i c) 0 = col_at c i.
Proof. destruct c as [l|l|l]; simpl; now destruct (l !! i). Qed.

Lemma cell_row_of (i : nat) (n : string) (df : DataFrame) :
  cell (row_of i df) n 0 = cell df n i.
Proof.
  unfold cell. induction df as [|[m c] df IH]; simpl.
  - reflexivity.
  - destruct (String.eqb m n).
    + apply col_at_col_row.
    + exact IH.
Qed.

Lemma iloc_row_inv (i : nat) (df row : DataFrame) :
  iloc_row i df = Ok row -> (i < nrows df)%nat /\ row = row_of i df.
Proof.
  unfold iloc_row. destruct (i <? nrows df)%nat eqn:E; intros H.
  - apply Nat.ltb_lt in E. now injection H as <-.
  - discriminate.
Qed.

(** C3. Feature engineering is row-independent: when it succeeds on a table,
    it succeeds on the single-row table of any of its rows, and every cell
    of that result (the derived ones among them) is the cell of the same
    row in the result for the full table. The training split and the
    serving handler both obtain their features from [engineer_features]. *)
Theorem engineer_features_row_independent :
  (forall (df out row : DataFrame) (i : nat),
      engineer_features df = Ok out ->
      iloc_row i df = Ok row ->
      exists row_out : DataFrame,
        engineer_features row = Ok row_out /\
        row_out = row_of i out /\
        forall n : string, cell row_out n 0 = cell out n i) /\
  (forall (df X : DataFrame) (y : list (option Z)),
      split_features_target df = Ok (X, y) ->
      exists dropped : DataFrame,
        drop_col TARGET_COL df = Ok dropped /\ engineer_features dropped = Ok X) /\
  (forall (model : Model) (payload : CustomerFeatures) (r : Prediction),
      predict (Some model) payload = Ok r ->
      exists (features : DataFrame) (proba : list (list R)),
        engineer_features (frame_of_record (model_dump payload)) = Ok features /\
        predict_proba model features = Ok proba).
Proof.
  split; [|split].
  - intros df out row i Hout Hrow.
    apply iloc_row_inv in Hrow as [_ ->].
    exists (row_of i out). split; [|split].
    + now apply engineer_features_row_of.
    + reflexivity.
    + intros n. apply cell_row_of.
  - intros df X y H. unfold split_features_target in H.
    destruct (drop_col TARGET_COL df) as [dropped|] eqn:Hd; [|discriminate].
    cbn [rbind] in H.
    destruct (engineer_features dropped) as [features|] eqn:He; [|discriminate].
    cbn [rbind] in H.
    destruct (get_col TARGET_COL df) as [yc|]; [|discriminate].
    cbn [rbind] in H. injection H as <- _.
    exists dropped. now split.
  - intros model payload r H. unfold predict in H.
    destruct (engineer_features (frame_of_record (model_dump payload)))
      as [features|] eqn:He; [|discriminate].
    cbn [rbind] in H.
    destruct (predict_proba model features) as [proba|] eqn:Hp; [|discriminate].
    exists features, proba. now split.
Qed.

Lemma engineer_features_row_independent_witness :
  exists out row row_out : DataFrame,
    engineer_features two_customers = Ok out /\
    iloc_row 1 two_customers = Ok row /\
    engineer_features row = Ok row_out /\
    row_out = row_of 1 out /\
    forall n : string, cell row_out n 0 = cell out n 1.
Proof.
  destruct (engineer_features two_customers) as [out|e] eqn:E.
  - destruct (proj1 engineer_features_row_independent two_customers out
                (row_of 1 two_customers) 1%nat E eq_refl)
      as (row_out & H1 & H2 & H3).
    exists out, (row_of 1 two_customers), row_out. repeat split; assumption.
  - exfalso. unfold engineer_features, two_customers in E.
    cbn -[ln Rplus IZR Rgt_dec Ropp] in E. discriminate E.
Defined.

(** ** The predict handler *)

Lemma engineer_features_request (payload : CustomerFeatures) :
  engineer_features (frame_of_record (model_dump payload)) =
    Ok (engineered_request payload).
Proof.
  unfold engineered_request.
  apply (engineer_features_appends _ (FloatCol [balance payload])
           (IntCol [campaign payload]) (IntCol [duration payload])
           (IntCol [previous payload])); try reflexivity.
  intros n Hn Hin. simpl in Hn, Hin.
  repeat (destruct Hn as [<-|Hn];
          [repeat (destruct Hin as [Hin|Hin]; try discriminate); exact Hin|]).
  exact Hn.
Qed.

Lemma getitem_Some {A : Type} (l : list A) (i : nat) (a : A) :
  l !! i = Some a -> getitem l i = Ok a.
Proof. unfold getitem. now intros ->. Qed.

(** C1. While a model is loaded, a request whose engineered single-row
    input the fitted pipeline maps to the positive-class probability [p]
    is answered with the record of [p] and of the label, where the label is
    1 exactly when [p >= 0.5]; the label is 0 or 1, and [p = 0.5] gives 1.
    The engineering step itself cannot fail on a request. *)
Theorem predict_loaded_thresholds (model : Model) (payload : CustomerFeatures)
    (proba : list (list R)) (row : list R) (p : R) :
  predict_proba model (engineered_request payload) = Ok proba ->
  proba !! 0%nat = Some row ->
  row !! 1%nat = Some p ->
  engineer_features (frame_of_record (model_dump payload)) =
    Ok (engineered_request payload) /\
  exists label : Z,
    predict (Some model) payload = Ok {| probability := p; prediction := label |} /\
    (label = 1 <-> (p >= 0.5)%R) /\
    (label = 0 \/ label = 1) /\
    (p = 0.5%R -> label = 1).
Proof.
  intros Hproba Hrow Hp. split; [apply engineer_features_request|].
  exists (int_of_bool (R_geb p 0.5)). split.
  - unfold predict. rewrite engineer_features_request. cbn [rbind].
    rewrite Hproba. cbn [rbind].
    rewrite (getitem_Some _ _ _ Hrow). cbn [rbind].
    rewrite (getitem_Some _ _ _ Hp). cbn [rbind]. reflexivity.
  - unfold R_geb. destruct (Rge_dec p 0.5) as [H|H]; simpl.
    + repeat split; auto.
    + repeat split; auto; try discriminate.
      * intros H'. contradiction.
      * intros ->. exfalso. apply H. lra.
Qed.

Lemma predict_loaded_thresholds_witness :
  exists label : Z,
    predict (Some coin_model) sample_request =
      Ok {| probability := 0.5; prediction := label |} /\
    (label = 1 <-> (0.5 >= 0.5)%R) /\
    (label = 0 \/ label = 1) /\
    (0.5%R = 0.5%R -> label = 1).
Proof.
  exact (proj2 (predict_loaded_thresholds coin_model sample_request
                  [[0.5%R; 0.5%R]] [0.5%R; 0.5%R] 0.5%R eq_refl eq_refl eq_refl)).
Defined.

(** C4. While the model reference is absent, every request is rejected with
    an HTTP error of status 500 (a server error, not a 4xx client error)
    and detail "Model not available."; the answer does not depend on any
    model and is never a prediction record. The reference is absent until
    start-up has loaded a model. *)
Theorem predict_unloaded_rejects (payload : CustomerFeatures) :
  predict None payload = Raise (HTTPException 500 "Model not available.") /\
  (forall r : Prediction, predict None payload <> Ok r) /\
  initial_model_instance = None.
Proof.
  split; [reflexivity|]. split; [|reflexivity].
  intros r H. discriminate H.
Qed.

(** ** The model-loading chain *)

Lemma is_dir_path_exists (files : gmap string node) (p : string) :
  is_dir files p = true -> path_exists files p = true.
Proof.
  unfold is_dir, path_exists. destruct (files !! p) as [[]|]; auto.
Qed.

Lemma load_loop_result (w : World) (cands : list candidate) :
  forall (last_exception : option exn) (calls : list string),
    fst (load_loop w cands last_exception calls) =
      match first_loaded w cands with
      | Some m => Ok m
      | None =>
          Raise (load_failure
                   (match last_failure w cands with
                    | Some e => Some e
                    | None => last_exception
                    end))
      end.
Proof.
  induction cands as [|c rest IH]; intros last calls.
  - reflexivity.
  - destruct c as [p|uri]; simpl.
    + destruct (is_dir (fs w) p) eqn:Hd.
      * rewrite (is_dir_path_exists _ _ Hd).
        destruct (mlflow_load_model w p) as [m|e]; simpl; [reflexivity|].
        rewrite IH. destruct (first_loaded w rest); [reflexivity|].
        now destruct (last_failure w rest).
      * destruct (path_exists (fs w) p).
        -- destruct (mlflow_load_model w p) as [m|e]; simpl; [reflexivity|].
           rewrite IH. destruct (first_loaded w rest); [reflexivity|].
           now destruct (last_failure w rest).
        -- rewrite IH. destruct (first_loaded w rest); [reflexivity|].
           now destruct (last_failure w rest).
    + destruct (mlflow_load_model w uri) as [m|e]; simpl; [reflexivity|].
      rewrite IH. destruct (first_loaded w rest); [reflexivity|].
      now destruct (last_failure w rest).
Qed.

Lemma load_candidates_order (w : World) :
  load_candidates w =
    (env_candidate w "MODEL_LOCAL_PATH" CPath ++
     env_candidate w "MODEL_URI" CUri ++
     DEFAULT_CANDIDATES (BASE_DIR w))%list.
Proof.
  unfold load_candidates, env_candidate.
  destruct (getenv_nonempty w "MODEL_LOCAL_PATH");
    destruct (getenv_nonempty w "MODEL_URI"); reflexivity.
Qed.

(** C5. The candidates are the MODEL_LOCAL_PATH override (when set), then
    the MODEL_URI override (when set), then the three fixed local paths.
    Loading returns the model of the first candidate, in that order, that
    loads; when none loads it raises the HTTP 500 error whose detail
    carries the failure of the last candidate that failed, and no other. *)
Theorem load_model_first_success_last_failure (w : World) :
  load_candidates w =
    (env_candidate w "MODEL_LOCAL_PATH" CPath ++
     env_candidate w "MODEL_URI" CUri ++
     DEFAULT_CANDIDATES (BASE_DIR w))%list /\
  fst (_load_model w) =
    match first_loaded w (load_candidates w) with
    | Some m => Ok m
    | None =>
        Raise (HTTPException 500
                 ("Model could not be loaded. Last error: "
                  ++ format_last (last_failure w (load_candidates w))))
    end.
Proof.
  split; [apply load_candidates_order|].
  unfold _load_model. rewrite load_loop_result.
  destruct (first_loaded w (load_candidates w)); [reflexivity|].
  now destruct (last_failure w (load_candidates w)).
Qed.

Lemma load_loop_all_absent (w : World) (cands : list candidate) :
  Forall (fun c => exists p : string, c = CPath p /\ fs w !! p = None) cands ->
  forall (last_exception : option exn) (calls : list string),
    load_loop w cands last_exception calls =
      (Raise (load_failure last_exception), calls).
Proof.
  induction 1 as [|c rest (p & -> & Hp) _ IH]; intros last calls.
  - reflexivity.
  - simpl. unfold is_dir, path_exists. rewrite Hp. apply IH.
Qed.

(** C10. A local-path candidate with nothing on disk is passed over: the
    loop goes on with the same last exception and the same list of load
    calls. Hence, when every candidate is such a path, no load is attempted
    and the error raised reports the last error as None. *)
Theorem load_model_skips_absent_paths (w : World) :
  (forall (p : string) (rest : list candidate) (last_exception : option exn)
          (calls : list string),
      fs w !! p = None ->
      load_loop w (CPath p :: rest) last_exception calls =
        load_loop w rest last_exception calls) /\
  (Forall (fun c => exists p : string, c = CPath p /\ fs w !! p = None)
          (load_candidates w) ->
   _load_model w =
     (Raise (HTTPException 500 "Model could not be loaded. Last error: None"), [])).
Proof.
  split.
  - intros p rest last calls Hp. simpl. unfold is_dir, path_exists.
    now rewrite Hp.
  - intros H. unfold _load_model. now rewrite load_loop_all_absent.
Qed.

Lemma load_model_skips_absent_paths_witness :
  _load_model bare_world =
    (Raise (HTTPException 500 "Model could not be loaded. Last error: None"), []).
Proof.
  apply (proj2 (load_model_skips_absent_paths bare_world)).
  repeat constructor; eexists; split; reflexivity.
Defined.

(** ** The preprocessing builder *)

(** C6. The builder declares exactly 9 categorical and exactly 11 numeric
    columns, all distinct, the numeric group holding the four engineered
    columns. Every numeric column goes through median imputation then
    standardization, every categorical column through most-frequent
    imputation then one-hot encoding with [handle_unknown="ignore"], under
    which a category unseen at fitting time is encoded as all zeros
    instead of raising. *)
Theorem build_preprocessing_pipeline_spec :
  length CATEGORICAL_COLS = 9%nat /\
  length NUMERIC_COLS = 11%nat /\
  NoDup (NUMERIC_COLS ++ CATEGORICAL_COLS)%list /\
  Forall (fun c => In c NUMERIC_COLS) DERIVED_COLS /\
  Forall (fun c => steps_for c build_preprocessing_pipeline =
                     Some [SimpleImputer Median; StandardScaler]) NUMERIC_COLS /\
  Forall (fun c => steps_for c build_preprocessing_pipeline =
                     Some [SimpleImputer MostFrequent; OneHotEncoder UnknownIgnore false])
         CATEGORICAL_COLS /\
  (forall (categories : list string) (v : string),
      ~ In v categories ->
      one_hot_transform UnknownIgnore categories v =
        Ok (repeat 0 (length categories))).
Proof.
  split; [reflexivity|]. split; [reflexivity|].
  split; [apply (bool_decide_unpack _); vm_compute; reflexivity|].
  split; [repeat constructor; simpl; tauto|].
  split; [repeat constructor|]. split; [repeat constructor|].
  intros categories v Hv. unfold one_hot_transform.
  destruct (existsb (String.eqb v) categories) eqn:E.
  - apply existsb_exists in E as (c & Hc & Heq).
    apply String.eqb_eq in Heq. subst c. contradiction.
  - f_equal. clear. induction categories; simpl; congruence.
Qed.

Lemma build_preprocessing_pipeline_spec_witness :
  one_hot_transform UnknownIgnore ["cellular"; "telephone"] "fax" = Ok [0; 0].
Proof.
  apply (proj2 (proj2 (proj2 (proj2 (proj2 (proj2
           build_preprocessing_pipeline_spec)))))
           ["cellular"; "telephone"] "fax").
  simpl. intros [H|[H|[]]]; discriminate H.
Defined.

(** ** Hyperparameter search *)

Lemma best_candidate_In (score : params -> R) (rest : list params) :
  forall best : params, In (best_candidate score best rest) (best :: rest).
Proof.
  induction rest as [|c rest IH]; intros best; simpl.
  - now left.
  - destruct (Rgt_dec (score c) (score best)).
    + right. apply IH.
    + destruct (IH best) as [H|H]; [now left|now right; right].
Qed.

Lemma best_candidate_ge (score : params -> R) (rest : list params) :
  forall (best c : params),
    In c (best :: rest) ->
    (score c <= score (best_candidate score best rest))%R.
Proof.
  induction rest as [|d rest IH]; intros best c Hc; simpl.
  - destruct Hc as [<-|[]]. lra.
  - destruct (Rgt_dec (score d) (score best)) as [Hgt|Hle].
    + destruct Hc as [<-|[<-|Hc]].
      * pose proof (IH d d (or_introl eq_refl)). lra.
      * apply IH. now left.
      * apply IH. now right.
    + destruct Hc as [<-|[<-|Hc]].
      * apply IH. now left.
      * pose proof (IH best best (or_introl eq_refl)). lra.
      * apply IH. now right.
Qed.

(** C7 (amended). The search is a grid search over three values of the
    regularization strength (0.1, 1.0, 10.0) and the single penalty type
    l2, three configurations in all; each is scored by ROC AUC under
    5-fold cross-validation, and the search returns a configuration of the
    grid whose score no other configuration of the grid exceeds. *)
Theorem perform_hyperparameter_tuning_spec
    (mean_test_score : string -> Z -> Pipeline -> params -> DataFrame -> list (option Z) -> R)
    (pipeline : Pipeline) (X_train : DataFrame) (y_train : list (option Z)) :
  exists fitted : FittedSearch,
    perform_hyperparameter_tuning mean_test_score pipeline X_train y_train = Ok fitted /\
    estimator (search fitted) = pipeline /\
    scoring (search fitted) = "roc_auc" /\
    cv (search fitted) = 5 /\
    grid_values "model__C" (param_grid (search fitted)) =
      [PFloat 0.1; PFloat 1.0; PFloat 10.0] /\
    grid_values "model__penalty" (param_grid (search fitted)) = [PStr "l2"] /\
    parameter_grid (param_grid (search fitted)) =
      [ [("model__C", PFloat 0.1); ("model__penalty", PStr "l2")];
        [("model__C", PFloat 1.0); ("model__penalty", PStr "l2")];
        [("model__C", PFloat 10.0); ("model__penalty", PStr "l2")] ] /\
    In (best_params_ fitted) (parameter_grid (param_grid (search fitted))) /\
    best_score_ fitted =
      mean_test_score "roc_auc" 5 pipeline (best_params_ fitted) X_train y_train /\
    Forall (fun c => (mean_test_score "roc_auc" 5%Z pipeline c X_train y_train
                      <= best_score_ fitted)%R)
           (parameter_grid (param_grid (search fitted))).
Proof.
  unfold perform_hyperparameter_tuning, grid_search_fit.
  cbn [parameter_grid param_grid flat_map map app scoring cv estimator].
  eexists. split; [reflexivity|].
  cbn [search best_params_ best_score_ estimator scoring cv param_grid
       grid_values String.eqb Ascii.eqb Bool.eqb parameter_grid flat_map map app].
  repeat (split; [reflexivity|]).
  split; [apply best_candidate_In|]. split; [reflexivity|].
  apply List.Forall_forall. intros c Hc.
  apply (best_candidate_ge (fun ps => mean_test_score "roc_auc" 5 pipeline ps X_train y_train)).
  exact Hc.
Qed.

(** C7 as stated fails: the grid lists one penalty type only. *)
Lemma penalty_grid_is_single_valued :
  exists fitted : FittedSearch,
    perform_hyperparameter_tuning flat_score build_training_pipeline
      scenario_positive [Some 1] = Ok fitted /\
    grid_values "model__penalty" (param_grid (search fitted)) = [PStr "l2"] /\
    ~ (1 < length (grid_values "model__penalty" (param_grid (search fitted))))%nat.
Proof.
  unfold perform_hyperparameter_tuning, grid_search_fit.
  cbn [parameter_grid param_grid flat_map map app scoring cv estimator].
  eexists. split; [reflexivity|].
  cbn [search param_grid grid_values String.eqb Ascii.eqb Bool.eqb length].
  split; [reflexivity|lia].
Qed.

(** ** Packaging *)

(** C9. With the persisted model directory in place (and the output
    location not occupied by a regular file), packaging succeeds and
    leaves a zip archive at [output_dir/bank_marketing_model.zip]; with
    nothing at the model path it raises [FileNotFoundError] whose message
    names the expected directory and tells the operator to run
    scripts/train_model.py first, and nothing is written. *)
Theorem package_main_spec (base_dir output_dir : string) (files : gmap string node) :
  let model_path := path_join (MODEL_DIR base_dir) "bank_marketing_model" in
  let target := path_join output_dir "bank_marketing_model" ++ ".zip" in
  (files !! model_path = Some Dir ->
   files !! output_dir <> Some File ->
   exists files' : gmap string node,
     package_model.main base_dir output_dir files =
       Ok (files', ["Packaged model at " ++ target]) /\
     files' !! target = Some File) /\
  (files !! model_path = None ->
   package_model.main base_dir output_dir files =
     Raise (FileNotFoundError
              ("Expected model directory at " ++ model_path
               ++ ". Run scripts/train_model.py first."))).
Proof.
  intros model_path target. split.
  - intros Hdir Hout.
    exists (<[target := File]> (<[output_dir := Dir]> files)). split.
    + unfold package_model.main, path_exists. fold model_path. rewrite Hdir.
      cbn [negb]. unfold mkdir_p.
      assert (Hmk : match files !! output_dir with
                    | Some File => Raise (FileExistsError output_dir)
                    | _ => Ok (<[output_dir := Dir]> files)
                    end = Ok (<[output_dir := Dir]> files)).
      { destruct (files !! output_dir) as [[]|]; congruence. }
      rewrite Hmk. cbn [rbind]. unfold make_archive. cbn [String.eqb Ascii.eqb Bool.eqb].
      assert (Hroot : <[output_dir := Dir]> files !! model_path = Some Dir).
      { destruct (decide (output_dir = model_path)) as [->|Hne].
        - apply lookup_insert_eq.
        - rewrite lookup_insert_ne; auto. }
      rewrite Hroot. cbn [rbind snd]. reflexivity.
    + apply lookup_insert_eq.
  - intros Habsent. unfold package_model.main, path_exists. fold model_path.
    rewrite Habsent. reflexivity.
Qed.

Lemma package_main_spec_witness :
  (exists files' : gmap string node,
      package_model.main "/srv/app" "dist" trained_files =
        Ok (files', ["Packaged model at dist/bank_marketing_model.zip"]) /\
      files' !! "dist/bank_marketing_model.zip" = Some File) /\
  package_model.main "/srv/app" "dist" ∅ =
    Raise (FileNotFoundError
             "Expected model directory at /srv/app/models/bank_marketing_model. Run scripts/train_model.py first.").
Proof.
  split.
  - apply (proj1 (package_main_spec "/srv/app" "dist" trained_files)).
    + vm_compute. reflexivity.
    + vm_compute. discriminate.
  - apply (proj2 (package_main_spec "/srv/app" "dist" ∅)).
    vm_compute. reflexivity.
Defined.

(** ** Cleaning *)

Lemma lstrip_length (s : string) : (String.length (lstrip s) <= String.length s)%nat.
Proof.
  induction s as [|c s IH]; simpl.
  - lia.
  - destruct (is_space c); simpl; lia.
Qed.

Lemma lstrip_fixed_head (c : ascii) (s : string) :
  lstrip (String c s) = String c s -> is_space c = false.
Proof.
  simpl. destruct (is_space c); [|reflexivity].
  intros H. pose proof (lstrip_length s) as L. rewrite H in L. simpl in L. lia.
Qed.

Lemma lstrip_idempotent (s : string) : lstrip (lstrip s) = lstrip s.
Proof.
  induction s as [|c s IH]; simpl.
  - reflexivity.
  - destruct (is_space c) eqn:E; [exact IH|]. simpl. now rewrite E.
Qed.

Lemma rstrip_idempotent (s : string) : rstrip (rstrip s) = rstrip s.
Proof.
  induction s as [|c s IH]; simpl.
  - reflexivity.
  - destruct (rstrip s) as [|d kept] eqn:E.
    + destruct (is_space c) eqn:Ec; simpl; [reflexivity|]. now rewrite Ec.
    + change (rstrip (String c (String d kept))) with
        (match rstrip (String d kept) with
         | EmptyString => if is_space c then EmptyString else String c EmptyString
         | String a b => String c (String a b)
         end).
      now rewrite IH.
Qed.

Lemma lstrip_rstrip_fixed (s : string) :
  lstrip s = s -> lstrip (rstrip s) = rstrip s.
Proof.
  destruct s as [|c s]; [reflexivity|].
  intros H. apply lstrip_fixed_head in H. simpl.
  destruct (rstrip s); rewrite ?H; simpl; now rewrite H.
Qed.

Lemma strip_idempotent (s : string) : strip (strip s) = strip s.
Proof.
  unfold strip.
  rewrite (lstrip_rstrip_fixed (lstrip s)) by apply lstrip_idempotent.
  apply rstrip_idempotent.
Qed.

Lemma df_replace_set_col (tok n : string) (c : column) (df : DataFrame) :
  df_replace tok (set_col n c df) = set_col n (replace_col tok c) (df_replace tok df).
Proof.
  induction df as [|[m c'] df IH]; simpl.
  - reflexivity.
  - destruct (String.eqb m n); simpl.
    + reflexivity.
    + f_equal. exact IH.
Qed.

Lemma replace_col_idempotent (tok : string) (c : column) :
  replace_col tok (replace_col tok c) = replace_col tok c.
Proof.
  destruct c as [l|l|l]; simpl; try reflexivity.
  f_equal. rewrite map_map. apply map_ext. intros [s|]; [|reflexivity].
  destruct (String.eqb s tok) eqn:E; [reflexivity|]. now rewrite E.
Qed.

Lemma df_replace_idempotent (tok : string) (df : DataFrame) :
  df_replace tok (df_replace tok df) = df_replace tok df.
Proof.
  unfold df_replace. rewrite map_map. apply map_ext. intros [n c]. simpl.
  now rewrite replace_col_idempotent.
Qed.

Lemma set_col_set_col (n : string) (c c' : column) (df : DataFrame) :
  set_col n c (set_col n c' df) = set_col n c df.
Proof.
  induction df as [|[m d] df IH]; simpl.
  - now rewrite String.eqb_refl.
  - destruct (String.eqb m n) eqn:E; simpl; rewrite E.
    + reflexivity.
    + f_equal. exact IH.
Qed.

Lemma replace_col_absent (tok : string) (l : list (option string)) :
  ~ In (Some tok) l -> replace_col tok (ObjCol l) = ObjCol l.
Proof.
  intros H. simpl. f_equal. induction l as [|o l IH]; simpl; [reflexivity|].
  rewrite IH by (intros H'; apply H; now right). f_equal.
  destruct o as [s|]; [|reflexivity].
  destruct (String.eqb s tok) eqn:E; [|reflexivity].
  apply String.eqb_eq in E. subst s. exfalso. apply H. now left.
Qed.

(** The normalised label column: every cell is a trimmed string. *)
Lemma label_normal_form (float_repr : R -> string) (c : column) :
  exists l : list string,
    str_strip (astype_str float_repr c) = Ok (ObjCol (map (fun s => Some (strip s)) l)).
Proof.
  destruct c as [l|l|l]; simpl.
  - exists (map str_of_Z l). now rewrite !map_map.
  - exists (map float_repr l). now rewrite !map_map.
  - exists (map (fun o => match o with Some s => s | None => "<NA>" end) l).
    now rewrite !map_map.
Qed.

Lemma label_normal_form_fixed (float_repr : R -> string) (l : list string) :
  str_strip (astype_str float_repr (ObjCol (map (fun s => Some (strip s)) l))) =
    Ok (ObjCol (map (fun s => Some (strip s)) l)).
Proof.
  simpl. rewrite !map_map. do 2 f_equal. apply map_ext. intros s. simpl.
  now rewrite strip_idempotent.
Qed.

(** C8 (amended). On every table with a label column y whose cleaned label
    column holds no cell equal to the token unknown, cleaning the cleaned
    table changes nothing. *)
Theorem clean_dataset_idempotent (float_repr : R -> string) (df cleaned : DataFrame) :
  clean_dataset float_repr df = Ok cleaned ->
  (forall labels : list (option string),
      get_col "y" cleaned = Ok (ObjCol labels) -> ~ In (Some UNKNOWN_TOKEN) labels) ->
  clean_dataset float_repr cleaned = Ok cleaned.
Proof.
  unfold clean_dataset. intros H Hlabels.
  destruct (get_col "y" (df_replace UNKNOWN_TOKEN df)) as [y|] eqn:Hy; [|discriminate].
  cbn [rbind] in H.
  destruct (label_normal_form float_repr y) as (l & Hl).
  rewrite Hl in H. cbn [rbind] in H. injection H as <-.
  specialize (Hlabels _ (get_col_set_col_eq _ _ _)).
  rewrite df_replace_set_col, df_replace_idempotent, (replace_col_absent _ _ Hlabels).
  rewrite get_col_set_col_eq. cbn [rbind].
  rewrite label_normal_form_fixed. cbn [rbind].
  now rewrite set_col_set_col.
Qed.

Lemma clean_dataset_idempotent_witness :
  clean_dataset repr_nan raw_sample =
    Ok [ ("job", ObjCol [None; Some "admin."]);
         ("balance", IntCol [-5; 100]);
         ("y", ObjCol [Some "yes"; Some "no"]) ] /\
  clean_dataset repr_nan
    [ ("job", ObjCol [None; Some "admin."]);
      ("balance", IntCol [-5; 100]);
      ("y", ObjCol [Some "yes"; Some "no"]) ] =
    Ok [ ("job", ObjCol [None; Some "admin."]);
         ("balance", IntCol [-5; 100]);
         ("y", ObjCol [Some "yes"; Some "no"]) ].
Proof.
  assert (E : clean_dataset repr_nan raw_sample =
                Ok [ ("job", ObjCol [None; Some "admin."]);
                     ("balance", IntCol [-5; 100]);
                     ("y", ObjCol [Some "yes"; Some "no"]) ]) by reflexivity.
  split; [exact E|].
  apply (clean_dataset_idempotent repr_nan raw_sample _ E).
  intros labels Hl. injection Hl as <-. simpl.
  intros [H|[H|[]]]; discriminate H.
Defined.

(** C8 as stated fails on a label that only becomes the token unknown once
    trimmed: the first pass leaves the string unknown, the second pass
    replaces it by the missing marker, which is stringified to <NA>. *)
Lemma clean_dataset_not_idempotent :
  clean_dataset repr_nan padded_unknown_label = Ok [ ("y", ObjCol [Some "unknown"]) ] /\
  clean_dataset repr_nan [ ("y", ObjCol [Some "unknown"]) ] =
    Ok [ ("y", ObjCol [Some "<NA>"]) ] /\
  clean_dataset repr_nan [ ("y", ObjCol [Some "unknown"]) ] <>
    clean_dataset repr_nan padded_unknown_label.
Proof.
  split; [reflexivity|]. split; [reflexivity|]. discriminate.
Qed.


(** ** Feature engineering: errors, overwriting and bounds *)

Lemma get_col_absent (n : string) (df : DataFrame) :
  ~ In n (columns df) -> get_col n df = Raise (KeyError n).
Proof.
  induction df as [|[m c] df IH]; simpl; intros H.
  - reflexivity.
  - destruct (String.eqb m n) eqn:E.
    + apply String.eqb_eq in E. tauto.
    + apply IH. tauto.
Qed.

Lemma set_col_same (n : string) (c : column) (df : DataFrame) :
  get_col n df = Ok c -> set_col n c df = df.
Proof.
  induction df as [|[m d] df IH]; simpl; intros H.
  - discriminate.
  - destruct (String.eqb m n).
    + now injection H as ->.
    + f_equal. auto.
Qed.

Lemma columns_set_col (n m : string) (c : column) (df : DataFrame) :
  In m (columns (set_col n c df)) <-> In m (columns df) \/ m = n.
Proof.
  induction df as [|[k d] df IH]; simpl.
  - intuition.
  - destruct (String.eqb k n) eqn:E; simpl.
    + apply String.eqb_eq in E. subst k. intuition.
    + rewrite IH. intuition.
Qed.

(** The four reads of [engineer_features] see the input columns: no derived
    name is a source name, so the reads can be taken on the input frame. *)
Lemma engineer_features_reads (df : DataFrame) :
  engineer_features df =
    let* ibp := (let* c := get_col "balance" df in gt_zero_astype_int c) in
    let* lc := (let* c := get_col "campaign" df in np_log1p c) in
    let* ld := (let* c := get_col "duration" df in np_log1p c) in
    let* hpc := (let* c := get_col "previous" df in gt_zero_astype_int c) in
    Ok (set_col "has_previous_contact" hpc
          (set_col "log_duration" ld
             (set_col "log_campaign" lc
                (set_col "is_balance_positive" ibp df)))).
Proof.
  unfold engineer_features.
  destruct (get_col "balance" df) as [bal|e]; cbn [rbind]; [|reflexivity].
  destruct (gt_zero_astype_int bal) as [ibp|e]; cbn [rbind]; [|reflexivity].
  rewrite (get_col_set_col_ne "is_balance_positive" "campaign") by discriminate.
  destruct (get_col "campaign" df) as [camp|e]; cbn [rbind]; [|reflexivity].
  destruct (np_log1p camp) as [lc|e]; cbn [rbind]; [|reflexivity].
  rewrite (get_col_set_col_ne "log_campaign" "duration") by discriminate.
  rewrite (get_col_set_col_ne "is_balance_positive" "duration") by discriminate.
  destruct (get_col "duration" df) as [dur|e]; cbn [rbind]; [|reflexivity].
  destruct (np_log1p dur) as [ld|e]; cbn [rbind]; [|reflexivity].
  rewrite (get_col_set_col_ne "log_duration" "previous") by discriminate.
  rewrite (get_col_set_col_ne "log_campaign" "previous") by discriminate.
  rewrite (get_col_set_col_ne "is_balance_positive" "previous") by discriminate.
  destruct (get_col "previous" df) as [prev|e]; reflexivity.
Qed.

Lemma numeric_gt_zero_ok (c : column) :
  is_numeric c = true -> exists l : list Z, gt_zero_astype_int c = Ok (IntCol l).
Proof.
  intros H. destruct (gt_zero_astype_int_spec c H) as (l & E & _). now exists l.
Qed.

Lemma numeric_log1p_ok (c : column) :
  is_numeric c = true -> exists l : list R, np_log1p c = Ok (FloatCol l).
Proof.
  intros H. destruct (np_log1p_spec c H) as (l & E & _). now exists l.
Qed.

(** X1. A missing source column raises [KeyError] naming it; the columns
    are read in the order balance, campaign, duration, previous, so the
    error names the first one missing (the ones before it being numeric). *)
Theorem engineer_features_missing_column (df : DataFrame) :
  (~ In "balance" (columns df) ->
   engineer_features df = Raise (KeyError "balance")) /\
  (forall bal : column,
      get_col "balance" df = Ok bal -> is_numeric bal = true ->
      ~ In "campaign" (columns df) ->
      engineer_features df = Raise (KeyError "campaign")) /\
  (forall bal camp : column,
      get_col "balance" df = Ok bal -> is_numeric bal = true ->
      get_col "campaign" df = Ok camp -> is_numeric camp = true ->
      ~ In "duration" (columns df) ->
      engineer_features df = Raise (KeyError "duration")) /\
  (forall bal camp dur : column,
      get_col "balance" df = Ok bal -> is_numeric bal = true ->
      get_col "campaign" df = Ok camp -> is_numeric camp = true ->
      get_col "duration" df = Ok dur -> is_numeric dur = true ->
      ~ In "previous" (columns df) ->
      engineer_features df = Raise (KeyError "previous")).
Proof.
  rewrite engineer_features_reads. repeat split.
  - intros H. now rewrite (get_col_absent _ _ H).
  - intros bal Hb Nb H. rewrite Hb. cbn [rbind].
    destruct (numeric_gt_zero_ok bal Nb) as (l & ->). cbn [rbind].
    now rewrite (get_col_absent _ _ H).
  - intros bal camp Hb Nb Hc Nc H. rewrite Hb, Hc. cbn [rbind].
    destruct (numeric_gt_zero_ok bal Nb) as (l & ->).
    destruct (numeric_log1p_ok camp Nc) as (l' & ->). cbn [rbind].
    now rewrite (get_col_absent _ _ H).
  - intros bal camp dur Hb Nb Hc Nc Hd Nd H. rewrite Hb, Hc, Hd. cbn [rbind].
    destruct (numeric_gt_zero_ok bal Nb) as (l & ->).
    destruct (numeric_log1p_ok camp Nc) as (l' & ->).
    destruct (numeric_log1p_ok dur Nd) as (l'' & ->). cbn [rbind].
    now rewrite (get_col_absent _ _ H).
Qed.

Lemma engineer_features_missing_column_witness :
  engineer_features [ ("balance", IntCol [100]); ("duration", IntCol [120]) ] =
    Raise (KeyError "campaign").
Proof.
  apply (proj1 (proj2 (engineer_features_missing_column
                         [ ("balance", IntCol [100]); ("duration", IntCol [120]) ]))
           (IntCol [100]) eq_refl eq_refl).
  simpl. intros [H|[H|[]]]; discriminate H.
Defined.

(** X2. With the four source columns present and numeric, engineering
    succeeds on any table, also one that already has columns named like
    the derived ones: each derived column of the result is the transform
    of its source column, every other column is the input's, and no column
    is dropped or added besides the derived four. *)
Theorem engineer_features_total_on_numeric (df : DataFrame)
    (bal camp dur prev : column) :
  get_col "balance" df = Ok bal -> is_numeric bal = true ->
  get_col "campaign" df = Ok camp -> is_numeric camp = true ->
  get_col "duration" df = Ok dur -> is_numeric dur = true ->
  get_col "previous" df = Ok prev -> is_numeric prev = true ->
  exists out : DataFrame,
    engineer_features df = Ok out /\
    get_col "is_balance_positive" out = gt_zero_astype_int bal /\
    get_col "log_campaign" out = np_log1p camp /\
    get_col "log_duration" out = np_log1p dur /\
    get_col "has_previous_contact" out = gt_zero_astype_int prev /\
    (forall n : string, ~ In n DERIVED_COLS -> get_col n out = get_col n df) /\
    (forall n : string, In n (columns out) <-> In n (columns df) \/ In n DERIVED_COLS).
Proof.
  intros Hb Nb Hc Nc Hd Nd Hp Np.
  destruct (numeric_gt_zero_ok bal Nb) as (ibp & Eb).
  destruct (numeric_log1p_ok camp Nc) as (lc & Ec).
  destruct (numeric_log1p_ok dur Nd) as (ld & Ed).
  destruct (numeric_gt_zero_ok prev Np) as (hpc & Ep).
  eexists. split.
  { rewrite engineer_features_reads, Hb, Hc, Hd, Hp. cbn [rbind].
    rewrite Eb, Ec, Ed, Ep. cbn [rbind]. reflexivity. }
  rewrite Eb, Ec, Ed, Ep. repeat split.
  - rewrite !get_col_set_col_ne by discriminate. apply get_col_set_col_eq.
  - rewrite !get_col_set_col_ne by discriminate. apply get_col_set_col_eq.
  - rewrite !get_col_set_col_ne by discriminate. apply get_col_set_col_eq.
  - apply get_col_set_col_eq.
  - intros n Hn. simpl in Hn.
    rewrite !get_col_set_col_ne; [reflexivity|intros <-; tauto..].
  - rewrite !columns_set_col. simpl. intuition.
  - rewrite !columns_set_col. simpl. intuition.
Qed.

Lemma engineer_features_total_on_numeric_witness :
  exists out : DataFrame,
    engineer_features frame_with_log_campaign = Ok out /\
    get_col "log_campaign" out = np_log1p (IntCol [2]) /\
    get_col "balance" out = Ok (IntCol [100]).
Proof.
  destruct (engineer_features_total_on_numeric frame_with_log_campaign
              (IntCol [100]) (IntCol [2]) (IntCol [120]) (IntCol [3])
              eq_refl eq_refl eq_refl eq_refl eq_refl eq_refl eq_refl eq_refl)
    as (out & E & _ & Hlc & _ & _ & Hkeep & _).
  exists out. split; [exact E|]. split; [exact Hlc|].
  rewrite Hkeep; [reflexivity|].
  simpl. intros [H|[H|[H|[H|[]]]]]; discriminate H.
Defined.

(** X3. Engineering is idempotent: applied to its own result it returns
    that result unchanged, the derived columns being recomputed from the
    untouched source columns. *)
Theorem engineer_features_idempotent (df out : DataFrame) :
  engineer_features df = Ok out -> engineer_features out = Ok out.
Proof.
  rewrite engineer_features_reads. intros H.
  destruct (get_col "balance" df) as [bal|] eqn:Hb; [|discriminate].
  cbn [rbind] in H.
  destruct (gt_zero_astype_int bal) as [ibp|] eqn:Eb; [|discriminate].
  cbn [rbind] in H.
  destruct (get_col "campaign" df) as [camp|] eqn:Hc; [|discriminate].
  cbn [rbind] in H.
  destruct (np_log1p camp) as [lc|] eqn:Ec; [|discriminate].
  cbn [rbind] in H.
  destruct (get_col "duration" df) as [dur|] eqn:Hd; [|discriminate].
  cbn [rbind] in H.
  destruct (np_log1p dur) as [ld|] eqn:Ed; [|discriminate].
  cbn [rbind] in H.
  destruct (get_col "previous" df) as [prev|] eqn:Hp; [|discriminate].
  cbn [rbind] in H.
  destruct (gt_zero_astype_int prev) as [hpc|] eqn:Ep; [|discriminate].
  cbn [rbind] in H. injection H as <-.
  rewrite engineer_features_reads.
  rewrite !(get_col_set_col_ne _ "balance") by discriminate.
  rewrite !(get_col_set_col_ne _ "campaign") by discriminate.
  rewrite !(get_col_set_col_ne _ "duration") by discriminate.
  rewrite !(get_col_set_col_ne _ "previous") by discriminate.
  rewrite Hb, Hc, Hd, Hp. cbn [rbind]. rewrite Eb, Ec, Ed, Ep. cbn [rbind].
  f_equal.
  rewrite (set_col_same "is_balance_positive").
  2:{ rewrite !get_col_set_col_ne by discriminate. apply get_col_set_col_eq. }
  rewrite (set_col_same "log_campaign").
  2:{ rewrite !get_col_set_col_ne by discriminate. apply get_col_set_col_eq. }
  rewrite (set_col_same "log_duration").
  2:{ rewrite !get_col_set_col_ne by discriminate. apply get_col_set_col_eq. }
  apply set_col_same, get_col_set_col_eq.
Qed.

Lemma engineer_features_idempotent_witness :
  exists out : DataFrame,
    engineer_features scenario_positive = Ok out /\ engineer_features out = Ok out.
Proof.
  destruct (engineer_features scenario_positive) as [out|e] eqn:E.
  - exists out. split; [reflexivity|].
    exact (engineer_features_idempotent scenario_positive out E).
  - exfalso. unfold engineer_features, scenario_positive in E.
    cbn -[ln Rplus IZR Rgt_dec Ropp] in E. discriminate E.
Defined.

Lemma ln_1_plus_nonneg (x : R) : (0 <= x)%R -> (0 <= ln (1 + x))%R.
Proof.
  intros [H|<-].
  - rewrite <- ln_1. left. apply ln_increasing; lra.
  - replace (1 + 0)%R with 1%R by lra. rewrite ln_1. lra.
Qed.

Lemma gt_zero_astype_int_cells (c c' : column) (i : nat) (v : value) :
  gt_zero_astype_int c = Ok c' -> col_at c' i = Some v -> v = VInt 0 \/ v = VInt 1.
Proof.
  destruct c as [l|l|l]; simpl; intros H; try discriminate;
    injection H as <-; simpl; rewrite list_lookup_fmap;
    destruct (l !! i) as [a|]; simpl; try discriminate;
    intros H; injection H as <-.
  - destruct (Z.gtb a 0); auto.
  - destruct (R_gtb a 0); auto.
Qed.

Lemma np_log1p_cells (c c' : column) (i : nat) (v : value) (x : R) :
  np_log1p c = Ok c' -> col_at c i = Some v -> as_real v = Some x ->
  col_at c' i = Some (VFloat (ln (1 + x))).
Proof.
  destruct c as [l|l|l]; simpl; intros H; try discriminate;
    injection H as <-; simpl; rewrite list_lookup_fmap;
    destruct (l !! i) as [a|]; simpl; try discriminate;
    intros H; injection H as <-; simpl; intros H; now injection H as <-.
Qed.

Lemma engineer_features_inv (df out : DataFrame) :
  engineer_features df = Ok out ->
  exists bal camp dur prev ibp lc ld hpc : column,
    (get_col "balance" df = Ok bal /\ gt_zero_astype_int bal = Ok ibp /\
     get_col "is_balance_positive" out = Ok ibp) /\
    (get_col "campaign" df = Ok camp /\ np_log1p camp = Ok lc /\
     get_col "log_campaign" out = Ok lc) /\
    (get_col "duration" df = Ok dur /\ np_log1p dur = Ok ld /\
     get_col "log_duration" out = Ok ld) /\
    (get_col "previous" df = Ok prev /\ gt_zero_astype_int prev = Ok hpc /\
     get_col "has_previous_contact" out = Ok hpc).
Proof.
  rewrite engineer_features_reads. intros H.
  destruct (get_col "balance" df) as [bal|] eqn:Hb; [|discriminate].
  cbn [rbind] in H.
  destruct (gt_zero_astype_int bal) as [ibp|] eqn:Eb; [|discriminate].
  cbn [rbind] in H.
  destruct (get_col "campaign" df) as [camp|] eqn:Hc; [|discriminate].
  cbn [rbind] in H.
  destruct (np_log1p camp) as [lc|] eqn:Ec; [|discriminate].
  cbn [rbind] in H.
  destruct (get_col "duration" df) as [dur|] eqn:Hd; [|discriminate].
  cbn [rbind] in H.
  destruct (np_log1p dur) as [ld|] eqn:Ed; [|discriminate].
  cbn [rbind] in H.
  destruct (get_col "previous" df) as [prev|] eqn:Hp; [|discriminate].
  cbn [rbind] in H.
  destruct (gt_zero_astype_int prev) as [hpc|] eqn:Ep; [|discriminate].
  cbn [rbind] in H. injection H as <-.
  exists bal, camp, dur, prev, ibp, lc, ld, hpc.
  repeat split; try reflexivity; try assumption;
    rewrite ?get_col_set_col_ne by discriminate; apply get_col_set_col_eq.
Qed.

(** X4. In every engineered table the two indicator columns hold only 0
    and 1, and a row whose campaign (duration) count is not negative has a
    log_campaign (log_duration) that is not negative either. *)
Theorem engineer_features_value_bounds (df out : DataFrame) :
  engineer_features df = Ok out ->
  (forall (i : nat) (v : value),
      cell out "is_balance_positive" i = Some v -> v = VInt 0 \/ v = VInt 1) /\
  (forall (i : nat) (v : value),
      cell out "has_previous_contact" i = Some v -> v = VInt 0 \/ v = VInt 1) /\
  (forall (i : nat) (v : value) (x : R),
      cell df "campaign" i = Some v -> as_real v = Some x -> (0 <= x)%R ->
      exists r : R, cell out "log_campaign" i = Some (VFloat r) /\ (0 <= r)%R) /\
  (forall (i : nat) (v : value) (x : R),
      cell df "duration" i = Some v -> as_real v = Some x -> (0 <= x)%R ->
      exists r : R, cell out "log_duration" i = Some (VFloat r) /\ (0 <= r)%R).
Proof.
  intros H.
  destruct (engineer_features_inv df out H)
    as (bal & camp & dur & prev & ibp & lc & ld & hpc
        & (Hb & Eb & Ob) & (Hc & Ec & Oc) & (Hd & Ed & Od) & (Hp & Ep & Op)).
  unfold cell. rewrite Ob, Oc, Od, Op, Hc, Hd. repeat split.
  - intros i v. apply (gt_zero_astype_int_cells bal ibp i v Eb).
  - intros i v. apply (gt_zero_astype_int_cells prev hpc i v Ep).
  - intros i v x Hv Hx Hx0. exists (ln (1 + x)). split.
    + apply (np_log1p_cells camp lc i v x Ec Hv Hx).
    + now apply ln_1_plus_nonneg.
  - intros i v x Hv Hx Hx0. exists (ln (1 + x)). split.
    + apply (np_log1p_cells dur ld i v x Ed Hv Hx).
    + now apply ln_1_plus_nonneg.
Qed.

Lemma engineer_features_value_bounds_witness :
  exists out : DataFrame,
    engineer_features two_customers = Ok out /\
    (forall (i : nat) (v : value),
        cell out "is_balance_positive" i = Some v -> v = VInt 0 \/ v = VInt 1) /\
    exists r : R, cell out "log_duration" 1 = Some (VFloat r) /\ (0 <= r)%R.
Proof.
  destruct (engineer_features two_customers) as [out|e] eqn:E.
  - destruct (engineer_features_value_bounds two_customers out E)
      as (Hi & _ & _ & Hd).
    exists out. split; [reflexivity|]. split; [exact Hi|].
    apply (Hd 1%nat (VInt 120) 120%R eq_refl eq_refl). lra.
  - exfalso. unfold engineer_features, two_customers in E.
    cbn -[ln Rplus IZR Rgt_dec Ropp] in E. discriminate E.
Defined.

(** ** Cleaning: errors, shape and cell-wise effect *)

Lemma columns_df_replace (tok : string) (df : DataFrame) :
  columns (df_replace tok df) = columns df.
Proof.
  unfold columns, df_replace. rewrite map_map. apply map_ext. now intros [n c].
Qed.

Lemma columns_set_col_present (n : string) (c : column) (df : DataFrame) :
  In n (columns df) -> columns (set_col n c df) = columns df.
Proof.
  induction df as [|[m d] df IH]; simpl; intros H.
  - contradiction.
  - destruct (String.eqb m n) eqn:E; simpl.
    + reflexivity.
    + f_equal. apply IH. destruct H as [->|H]; [|exact H].
      rewrite String.eqb_refl in E. discriminate.
Qed.

Lemma get_col_df_replace (tok n : string) (df : DataFrame) :
  get_col n (df_replace tok df) =
    match get_col n df with
    | Ok c => Ok (replace_col tok c)
    | Raise e => Raise e
    end.
Proof.
  induction df as [|[m c] df IH]; simpl.
  - reflexivity.
  - destruct (String.eqb m n); [reflexivity|exact IH].
Qed.

Lemma col_at_replace_col (c : column) (i : nat) :
  col_at (replace_col UNKNOWN_TOKEN c) i = na_if_unknown <$> col_at c i.
Proof.
  destruct c as [l|l|l]; simpl.
  - now destruct (l !! i).
  - now destruct (l !! i).
  - rewrite list_lookup_fmap. destruct (l !! i) as [[s|]|]; simpl; try reflexivity.
    now destruct (String.eqb s UNKNOWN_TOKEN).
Qed.

Lemma col_len_replace_col (tok : string) (c : column) :
  col_len (replace_col tok c) = col_len c.
Proof. destruct c; simpl; try reflexivity. apply length_map. Qed.

Lemma clean_dataset_inv (float_repr : R -> string) (df cleaned : DataFrame) :
  clean_dataset float_repr df = Ok cleaned ->
  exists (y : column) (l : list string),
    get_col "y" df = Ok y /\
    str_strip (astype_str float_repr (replace_col UNKNOWN_TOKEN y)) =
      Ok (ObjCol (map (fun s => Some (strip s)) l)) /\
    cleaned = set_col "y" (ObjCol (map (fun s => Some (strip s)) l))
                (df_replace UNKNOWN_TOKEN df).
Proof.
  unfold clean_dataset. rewrite get_col_df_replace.
  destruct (get_col "y" df) as [y|] eqn:Hy; [|discriminate].
  cbn [rbind].
  destruct (label_normal_form float_repr (replace_col UNKNOWN_TOKEN y)) as (l & Hl).
  rewrite Hl. cbn [rbind]. intros H. injection H as <-.
  exists y, l. repeat split. exact Hl.
Qed.

(** X5. Cleaning a table without a label column y raises [KeyError] for y. *)
Theorem clean_dataset_missing_label (float_repr : R -> string) (df : DataFrame) :
  ~ In "y" (columns df) -> clean_dataset float_repr df = Raise (KeyError "y").
Proof.
  intros H. unfold clean_dataset.
  rewrite get_col_absent; [reflexivity|]. now rewrite columns_df_replace.
Qed.

Lemma clean_dataset_missing_label_witness :
  clean_dataset repr_nan scenario_positive = Raise (KeyError "y").
Proof.
  apply clean_dataset_missing_label.
  simpl. intros [H|[H|[H|[H|[]]]]]; discriminate H.
Defined.

(** X6. Cleaning keeps the shape of the table: the same column names in
    the same order, and every column keeps its height. *)
Theorem clean_dataset_keeps_shape (float_repr : R -> string) (df cleaned : DataFrame) :
  clean_dataset float_repr df = Ok cleaned ->
  columns cleaned = columns df /\
  forall (n : string) (c : column),
    get_col n df = Ok c ->
    exists c' : column, get_col n cleaned = Ok c' /\ col_len c' = col_len c.
Proof.
  intros H. destruct (clean_dataset_inv _ _ _ H) as (y & l & Hy & Hl & ->).
  split.
  - rewrite columns_set_col_present; [apply columns_df_replace|].
    rewrite columns_df_replace. apply (get_col_In _ _ _ Hy).
  - intros n c Hc. destruct (String.eqb_spec "y" n) as [<-|Hne].
    + rewrite get_col_set_col_eq. eexists. split; [reflexivity|].
      rewrite Hy in Hc. injection Hc as <-.
      assert (Hlen : col_len (ObjCol (map (fun s => Some (strip s)) l)) =
                     col_len (replace_col UNKNOWN_TOKEN y)).
      { revert Hl. generalize (map (fun s => Some (strip s)) l).
        destruct y as [a|a|a]; simpl; intros l0 E; injection E as <-;
          now rewrite !length_map. }
      rewrite Hlen. apply col_len_replace_col.
    + rewrite get_col_set_col_ne by exact Hne.
      rewrite get_col_df_replace, Hc. eexists. split; [reflexivity|].
      apply col_len_replace_col.
Qed.

Lemma clean_dataset_keeps_shape_witness :
  exists cleaned : DataFrame,
    clean_dataset repr_nan raw_sample = Ok cleaned /\
    columns cleaned = ["job"; "balance"; "y"].
Proof.
  destruct (clean_dataset repr_nan raw_sample) as [cleaned|e] eqn:E.
  - exists cleaned. split; [reflexivity|].
    exact (proj1 (clean_dataset_keeps_shape repr_nan raw_sample cleaned E)).
  - exfalso. discriminate E.
Defined.

(** X7. Outside the label column, cleaning changes a cell only when the
    cell is the whole string unknown, which becomes the missing marker;
    hence no such cell is left, and numeric cells are untouched. *)
Theorem clean_dataset_cellwise (float_repr : R -> string) (df cleaned : DataFrame)
    (n : string) (i : nat) :
  clean_dataset float_repr df = Ok cleaned ->
  n <> "y" ->
  cell cleaned n i = na_if_unknown <$> cell df n i /\
  cell cleaned n i <> Some (VStr UNKNOWN_TOKEN) /\
  (forall v : value, cell df n i = Some v -> as_real v <> None ->
                     cell cleaned n i = Some v).
Proof.
  intros H Hn. destruct (clean_dataset_inv _ _ _ H) as (y & l & _ & _ & ->).
  assert (E : cell (set_col "y" (ObjCol (map (fun s => Some (strip s)) l))
                      (df_replace UNKNOWN_TOKEN df)) n i =
              na_if_unknown <$> cell df n i).
  { unfold cell. rewrite get_col_set_col_ne by (intros <-; now apply Hn).
    rewrite get_col_df_replace. destruct (get_col n df) as [c|e]; [|reflexivity].
    apply col_at_replace_col. }
  rewrite E. split; [reflexivity|]. split.
  - destruct (cell df n i) as [[z|r|s|]|]; simpl; try discriminate.
    destruct (String.eqb s UNKNOWN_TOKEN) eqn:Es; [discriminate|].
    intros H'. injection H' as ->. now rewrite String.eqb_refl in Es.
  - intros v -> Hv. destruct v; simpl in *; congruence.
Qed.

Lemma clean_dataset_cellwise_witness :
  exists cleaned : DataFrame,
    clean_dataset repr_nan raw_sample = Ok cleaned /\
    cell cleaned "job" 0 = Some VNA /\
    cell cleaned "job" 1 = Some (VStr "admin.").
Proof.
  destruct (clean_dataset repr_nan raw_sample) as [cleaned|e] eqn:E.
  - exists cleaned. split; [reflexivity|].
    assert (Hn : "job" <> "y") by discriminate.
    split.
    + exact (proj1 (clean_dataset_cellwise repr_nan raw_sample cleaned "job" 0 E Hn)).
    + exact (proj1 (clean_dataset_cellwise repr_nan raw_sample cleaned "job" 1 E Hn)).
  - exfalso. discriminate E.
Defined.

(** X8. After cleaning, the label column is an object column of strings
    only: no cell is missing, and no label starts or ends with
    whitespace. *)
Theorem clean_dataset_labels_trimmed (float_repr : R -> string) (df cleaned : DataFrame) :
  clean_dataset float_repr df = Ok cleaned ->
  exists labels : list (option string),
    get_col "y" cleaned = Ok (ObjCol labels) /\
    Forall (fun o => exists s : string,
                o = Some s /\ lstrip s = s /\ rstrip s = s /\
                forall (c : ascii) (rest : string),
                  s = String c rest -> is_space c = false) labels.
Proof.
  intros H. destruct (clean_dataset_inv _ _ _ H) as (y & l & _ & _ & ->).
  eexists. split; [apply get_col_set_col_eq|].
  apply List.Forall_forall. intros o Ho.
  apply in_map_iff in Ho as (s & <- & _).
  assert (Hl : lstrip (strip s) = strip s).
  { unfold strip. apply lstrip_rstrip_fixed, lstrip_idempotent. }
  exists (strip s). split; [reflexivity|]. split; [exact Hl|]. split.
  - unfold strip. apply rstrip_idempotent.
  - intros c rest Hc. rewrite Hc in Hl. now apply lstrip_fixed_head in Hl.
Qed.

Lemma clean_dataset_labels_trimmed_witness :
  exists labels : list (option string),
    get_col "y" [ ("job", ObjCol [None; Some "admin."]);
                  ("balance", IntCol [-5; 100]);
                  ("y", ObjCol [Some "yes"; Some "no"]) ] = Ok (ObjCol labels) /\
    Forall (fun o => exists s : string,
                o = Some s /\ lstrip s = s /\ rstrip s = s /\
                forall (c : ascii) (rest : string),
                  s = String c rest -> is_space c = false) labels.
Proof.
  exact (clean_dataset_labels_trimmed repr_nan raw_sample _ eq_refl).
Defined.

(** ** Splitting features and target *)

Lemma engineer_features_frame (df out : DataFrame) :
  engineer_features df = Ok out ->
  (forall n : string, ~ In n DERIVED_COLS -> get_col n out = get_col n df) /\
  (forall n : string, In n (columns out) <-> In n (columns df) \/ In n DERIVED_COLS).
Proof.
  rewrite engineer_features_reads. intros H.
  destruct (let* c := get_col "balance" df in gt_zero_astype_int c) as [ibp|];
    [|discriminate]. cbn [rbind] in H.
  destruct (let* c := get_col "campaign" df in np_log1p c) as [lc|];
    [|discriminate]. cbn [rbind] in H.
  destruct (let* c := get_col "duration" df in np_log1p c) as [ld|];
    [|discriminate]. cbn [rbind] in H.
  destruct (let* c := get_col "previous" df in gt_zero_astype_int c) as [hpc|];
    [|discriminate]. cbn [rbind] in H. injection H as <-.
  split.
  - intros n Hn. simpl in Hn.
    rewrite !get_col_set_col_ne; [reflexivity|intros <-; tauto..].
  - intros n. rewrite !columns_set_col. simpl. intuition.
Qed.

Lemma drop_col_spec (name : string) (df dropped : DataFrame) :
  drop_col name df = Ok dropped ->
  ~ In name (columns dropped) /\
  (forall n : string, In n (columns dropped) -> In n (columns df)) /\
  (forall n : string, n <> name -> get_col n dropped = get_col n df).
Proof.
  unfold drop_col. destruct (get_col name df) as [c|]; [|discriminate].
  cbn [rbind]. intros H. injection H as <-. repeat split.
  - unfold columns. rewrite in_map_iff. intros ([n c'] & Hn & Hin).
    simpl in Hn. subst n.
    apply list_elem_of_In, list_elem_of_filter in Hin as [Hf _]. simpl in Hf.
    now rewrite String.eqb_refl in Hf.
  - unfold columns. intros n. rewrite !in_map_iff.
    intros (x & Hx & Hin). exists x. split; [exact Hx|].
    apply list_elem_of_In. now apply list_elem_of_In, list_elem_of_filter in Hin.
  - intros n Hn. unfold DataFrame in *.
    induction df as [|[m d] df IH]; [reflexivity|].
    destruct (String.eqb m name) eqn:E.
    + rewrite filter_cons_False by (simpl; now rewrite E).
      apply String.eqb_eq in E. subst m. simpl.
      destruct (String.eqb name n) eqn:E'; [|exact IH].
      apply String.eqb_eq in E'. congruence.
    + rewrite filter_cons_True by (simpl; now rewrite E). simpl.
      destruct (String.eqb m n); [reflexivity|exact IH].
Qed.

(** X9. When the split succeeds, the feature matrix has no label column,
    has the four derived columns, carries every other input column
    unchanged, and the target has one entry per label. *)
Theorem split_features_target_shape (df X : DataFrame) (target : list (option Z)) :
  split_features_target df = Ok (X, target) ->
  ~ In TARGET_COL (columns X) /\
  Forall (fun n => In n (columns X)) DERIVED_COLS /\
  (forall n : string,
      n <> TARGET_COL -> ~ In n DERIVED_COLS -> get_col n X = get_col n df) /\
  exists y : column, get_col TARGET_COL df = Ok y /\ length target = col_len y.
Proof.
  unfold split_features_target. intros H.
  destruct (drop_col TARGET_COL df) as [dropped|] eqn:Hd; [|discriminate].
  cbn [rbind] in H.
  destruct (engineer_features dropped) as [features|] eqn:He; [|discriminate].
  cbn [rbind] in H.
  destruct (get_col TARGET_COL df) as [y|] eqn:Hy; [|discriminate].
  cbn [rbind] in H. injection H as <- <-.
  destruct (drop_col_spec _ _ _ Hd) as (Hno & _ & Hsame).
  destruct (engineer_features_frame _ _ He) as (Hkeep & Hcols).
  repeat split.
  - rewrite Hcols. intros [H|H]; [now apply Hno|].
    simpl in H. unfold TARGET_COL in H.
    destruct H as [H|[H|[H|[H|[]]]]]; discriminate H.
  - apply List.Forall_forall. intros n Hn. apply Hcols. now right.
  - intros n Hn Hd'. rewrite Hkeep by exact Hd'. now apply Hsame.
  - exists y. split; [reflexivity|].
    destruct y as [l|l|l]; simpl; apply length_map.
Qed.

Lemma split_features_target_shape_witness :
  exists (X : DataFrame) (target : list (option Z)),
    split_features_target raw_customers = Ok (X, target) /\
    ~ In TARGET_COL (columns X) /\
    Forall (fun n => In n (columns X)) DERIVED_COLS.
Proof.
  destruct (split_features_target raw_customers) as [[X target]|e] eqn:E.
  - exists X, target. split; [reflexivity|].
    destruct (split_features_target_shape raw_customers X target E) as (H1 & H2 & _).
    now split.
  - exfalso. unfold split_features_target, drop_col, engineer_features, raw_customers in E.
    cbn -[ln Rplus IZR Rgt_dec Ropp] in E. discriminate E.
Defined.

(** X10. Splitting a table without a label column raises [KeyError],
    whatever else the table holds: the label is dropped before any
    feature is engineered. *)
Theorem split_features_target_missing_label (df : DataFrame) :
  ~ In TARGET_COL (columns df) ->
  exists key : string, split_features_target df = Raise (KeyError key).
Proof.
  intros H. exists TARGET_COL. unfold split_features_target, drop_col.
  now rewrite (get_col_absent _ _ H).
Qed.

Lemma split_features_target_missing_label_witness :
  exists key : string, split_features_target scenario_positive = Raise (KeyError key).
Proof.
  apply split_features_target_missing_label.
  simpl. intros [H|[H|[H|[H|[]]]]]; discriminate H.
Defined.

Lemma strip_unknown_token : strip UNKNOWN_TOKEN = UNKNOWN_TOKEN.
Proof. reflexivity. Qed.

(** X11. Cleaning then splitting maps every string label by its trimmed
    text: yes gives 1, no gives 0, also when the raw label is padded with
    whitespace; any other label, and a missing one, gives a missing
    target. *)
Theorem clean_then_split_targets (float_repr : R -> string)
    (df cleaned X : DataFrame) (labels : list (option string))
    (target : list (option Z)) :
  get_col TARGET_COL df = Ok (ObjCol labels) ->
  clean_dataset float_repr df = Ok cleaned ->
  split_features_target cleaned = Ok (X, target) ->
  target = map (fun o => match o with
                         | Some s => target_of_label s
                         | None => None
                         end) labels.
Proof.
  intros Hy Hc Hs.
  destruct (clean_dataset_inv _ _ _ Hc) as (y & l & Hy' & Hl & ->).
  unfold TARGET_COL in Hy. rewrite Hy in Hy'. injection Hy' as <-.
  unfold split_features_target in Hs.
  destruct (drop_col TARGET_COL _) as [dropped|]; [|discriminate].
  cbn [rbind] in Hs.
  destruct (engineer_features dropped) as [features|]; [|discriminate].
  cbn [rbind] in Hs. unfold TARGET_COL in Hs.
  rewrite get_col_set_col_eq in Hs. cbn [rbind] in Hs. injection Hs as _ <-.
  simpl in Hl. injection Hl as Hl. rewrite <- Hl. simpl.
  rewrite !map_map. apply map_ext. intros [s|]; simpl.
  - unfold target_of_label.
    destruct (String.eqb s UNKNOWN_TOKEN) eqn:E; simpl.
    + apply String.eqb_eq in E. subst s. reflexivity.
    + reflexivity.
  - reflexivity.
Qed.

Lemma clean_then_split_targets_witness :
  exists (cleaned X : DataFrame) (target : list (option Z)),
    clean_dataset repr_nan raw_customers = Ok cleaned /\
    split_features_target cleaned = Ok (X, target) /\
    target = [Some 1; Some 0].
Proof.
  destruct (clean_dataset repr_nan raw_customers) as [cleaned|e] eqn:Ec;
    [|exfalso; discriminate Ec].
  destruct (split_features_target cleaned) as [[X target]|e] eqn:Es.
  - exists cleaned, X, target. split; [reflexivity|]. split; [exact Es|].
    exact (clean_then_split_targets repr_nan raw_customers cleaned X
             [Some " yes"; Some "no "] target eq_refl Ec Es).
  - exfalso. injection Ec as <-.
    unfold split_features_target, drop_col, engineer_features in Es.
    cbn -[ln Rplus IZR Rgt_dec Ropp] in Es. discriminate Es.
Defined.

(** ** The predict handler: failures of the pipeline *)

(** X12. With a model loaded, a failure of the fitted pipeline is raised
    to the caller unchanged, and a result without a first row, or whose
    first row has no second entry, raises [IndexError]: no default
    prediction is substituted. *)
Theorem predict_propagates_failures (model : Model) (payload : CustomerFeatures) :
  (forall e : exn,
      predict_proba model (engineered_request payload) = Raise e ->
      predict (Some model) payload = Raise e) /\
  (forall proba : list (list R),
      predict_proba model (engineered_request payload) = Ok proba ->
      proba !! 0%nat = None ->
      exists msg : string, predict (Some model) payload = Raise (IndexError msg)) /\
  (forall (proba : list (list R)) (row : list R),
      predict_proba model (engineered_request payload) = Ok proba ->
      proba !! 0%nat = Some row -> row !! 1%nat = None ->
      exists msg : string, predict (Some model) payload = Raise (IndexError msg)).
Proof.
  unfold predict. rewrite engineer_features_request. cbn [rbind].
  repeat split.
  - intros e ->. reflexivity.
  - intros proba -> H. cbn [rbind]. unfold getitem. rewrite H. now eexists.
  - intros proba row -> H1 H2. cbn [rbind]. unfold getitem.
    rewrite H1. cbn [rbind]. rewrite H2. now eexists.
Qed.

Lemma predict_propagates_failures_witness :
  predict (Some failing_model) sample_request = Raise (ValueError "Input contains NaN.") /\
  exists msg : string,
    predict (Some one_class_model) sample_request = Raise (IndexError msg).
Proof.
  split.
  - exact (proj1 (predict_propagates_failures failing_model sample_request)
             (ValueError "Input contains NaN.") eq_refl).
  - exact (proj2 (proj2 (predict_propagates_failures one_class_model sample_request))
             [[1%R]] [1%R] eq_refl eq_refl eq_refl).
Defined.

(** X13. The frame the handler passes to the model has exactly the columns
    the preprocessing builder selects, each once: every numeric-group
    column is there with a numeric dtype, every categorical-group column
    with the object dtype, and there is no other column. *)
Theorem request_columns_match_preprocessor (payload : CustomerFeatures) :
  columns (engineered_request payload) ≡ₚ (NUMERIC_COLS ++ CATEGORICAL_COLS)%list /\
  Forall (fun n => exists c : column,
              get_col n (engineered_request payload) = Ok c /\ is_numeric c = true)
         NUMERIC_COLS /\
  Forall (fun n => exists cells : list (option string),
              get_col n (engineered_request payload) = Ok (ObjCol cells))
         CATEGORICAL_COLS.
Proof.
  split; [|split].
  - change (columns (engineered_request payload)) with
      [ "age"; "job"; "marital"; "education"; "default"; "balance"; "housing";
        "loan"; "contact"; "day"; "month"; "duration"; "campaign"; "pdays";
        "previous"; "poutcome"; "is_balance_positive"; "log_campaign";
        "log_duration"; "has_previous_contact" ].
    apply (bool_decide_unpack _). vm_compute. reflexivity.
  - repeat constructor; eexists; (split; [reflexivity|reflexivity]).
  - repeat constructor; eexists; reflexivity.
Qed.

(** ** The model-loading chain: what is loaded, and from where *)

Lemma load_loop_trace (w : World) (cands : list candidate) :
  forall (last_exception : option exn) (calls : list string),
  exists tried : list string,
    snd (load_loop w cands last_exception calls) = (calls ++ tried)%list /\
    Forall (loadable_candidate w cands) tried /\
    match fst (load_loop w cands last_exception calls) with
    | Ok m =>
        exists (failed : list string) (uri : string),
          tried = (failed ++ [uri])%list /\
          mlflow_load_model w uri = Ok m /\
          Forall (load_raised w) failed
    | Raise _ => Forall (load_raised w) tried
    end.
Proof.
  assert (Hweak : forall (c : candidate) (rest : list candidate) (l : list string),
             Forall (loadable_candidate w rest) l ->
             Forall (loadable_candidate w (c :: rest)) l).
  { intros c rest l. apply List.Forall_impl. intros u [H|[H1 H2]].
    - left. now right.
    - right. split; [now right|exact H2]. }
  assert (Hstep : forall (c : candidate) (rest : list candidate) (u : string)
                         (last : option exn) (calls : list string),
             (forall last' calls', exists tried : list string,
                 snd (load_loop w rest last' calls') = (calls' ++ tried)%list /\
                 Forall (loadable_candidate w rest) tried /\
                 match fst (load_loop w rest last' calls') with
                 | Ok m =>
                     exists (failed : list string) (uri : string),
                       tried = (failed ++ [uri])%list /\
                       mlflow_load_model w uri = Ok m /\
                       Forall (load_raised w) failed
                 | Raise _ => Forall (load_raised w) tried
                 end) ->
             loadable_candidate w (c :: rest) u ->
             let r := match mlflow_load_model w u with
                      | Ok m => (Ok m, (calls ++ [u])%list)
                      | Raise exc => load_loop w rest (Some exc) (calls ++ [u])%list
                      end in
             exists tried : list string,
               snd r = (calls ++ tried)%list /\
               Forall (loadable_candidate w (c :: rest)) tried /\
               match fst r with
               | Ok m =>
                   exists (failed : list string) (uri : string),
                     tried = (failed ++ [uri])%list /\
                     mlflow_load_model w uri = Ok m /\
                     Forall (load_raised w) failed
               | Raise _ => Forall (load_raised w) tried
               end).
  { intros c rest u last calls IH Hu.
    destruct (mlflow_load_model w u) as [m|e] eqn:E; cbn zeta.
    - exists [u]. split; [reflexivity|]. split; [now constructor|].
      simpl. exists [], u. repeat split; [exact E|constructor].
    - destruct (IH (Some e) (calls ++ [u])%list) as (tried & Hs & Hc & Hr).
      exists (u :: tried). split.
      + rewrite Hs, <- app_assoc. reflexivity.
      + split; [constructor; [exact Hu|now apply Hweak]|].
        destruct (fst (load_loop w rest (Some e) (calls ++ [u])%list)) as [m|e'].
        * destruct Hr as (failed & uri & -> & Hm & Hf).
          exists (u :: failed), uri. repeat split; [exact Hm|].
          constructor; [now exists e|exact Hf].
        * constructor; [now exists e|exact Hr]. }
  induction cands as [|c rest IH]; intros last calls.
  - exists []. simpl. rewrite app_nil_r. repeat split; constructor.
  - destruct c as [p|uri]; simpl.
    + destruct (is_dir (fs w) p) eqn:Hd.
      * apply (Hstep (CPath p) rest p last calls IH).
        right. split; [now left|now apply is_dir_path_exists].
      * destruct (path_exists (fs w) p) eqn:He.
        -- apply (Hstep (CPath p) rest p last calls IH).
           right. split; [now left|exact He].
        -- destruct (IH last calls) as (tried & Hs & Hc & Hr).
           exists tried. split; [exact Hs|]. split; [now apply Hweak|exact Hr].
    + apply (Hstep (CUri uri) rest uri last calls IH). left. now left.
Qed.

(** X14. Whatever the outcome, every load call of [_load_model] is made on
    a URI candidate or on a path candidate that exists on disk. On success
    the model returned is the result of the last call and every earlier
    call raised; on failure every call raised. *)
Theorem load_model_call_trace (w : World) :
  Forall (loadable_candidate w (load_candidates w)) (snd (_load_model w)) /\
  match fst (_load_model w) with
  | Ok m =>
      exists (failed : list string) (uri : string),
        snd (_load_model w) = (failed ++ [uri])%list /\
        mlflow_load_model w uri = Ok m /\
        Forall (load_raised w) failed
  | Raise _ => Forall (load_raised w) (snd (_load_model w))
  end.
Proof.
  unfold _load_model.
  destruct (load_loop_trace w (load_candidates w) None []) as (tried & Hs & Hc & Hr).
  rewrite Hs. simpl. split; [exact Hc|exact Hr].
Qed.

(** X15. When MODEL_LOCAL_PATH names an existing path that loads, that
    model is returned after this single load call: neither MODEL_URI nor a
    default path is tried. *)
Theorem load_model_local_override_wins (w : World) (p : string) (m : Model) :
  environ w !! "MODEL_LOCAL_PATH" = Some p ->
  p <> EmptyString ->
  path_exists (fs w) p = true ->
  mlflow_load_model w p = Ok m ->
  _load_model w = (Ok m, [p]).
Proof.
  intros Henv Hp Hex Hload. unfold _load_model, load_candidates, getenv_nonempty.
  rewrite Henv. destruct p as [|a p]; [contradiction|].
  destruct (match environ w !! "MODEL_URI" with
            | Some EmptyString => None
            | other => other
            end); simpl; rewrite Hex, Hload; now destruct (is_dir (fs w) (String a p)).
Qed.

Lemma load_model_local_override_wins_witness :
  _load_model overridden_world = (Ok coin_model, ["/opt/model"]).
Proof.
  apply load_model_local_override_wins.
  - vm_compute. reflexivity.
  - discriminate.
  - vm_compute. reflexivity.
  - reflexivity.
Defined.

Lemma first_loaded_Some (w : World) (cands : list candidate) (m : Model) :
  first_loaded w cands = Some m -> exists c : candidate, In c cands /\ attempt w c = Loaded m.
Proof.
  induction cands as [|c rest IH]; simpl; [discriminate|].
  destruct (attempt w c) as [m'| |] eqn:E; intros H.
  - injection H as ->. exists c. split; [now left|exact E].
  - destruct (IH H) as (c' & Hin & Hc'). exists c'. split; [now right|exact Hc'].
  - destruct (IH H) as (c' & Hin & Hc'). exists c'. split; [now right|exact Hc'].
Qed.

Lemma first_loaded_None (w : World) (cands : list candidate) :
  first_loaded w cands = None ->
  forall (c : candidate) (m : Model), In c cands -> attempt w c <> Loaded m.
Proof.
  induction cands as [|c rest IH]; simpl; intros H c' m Hin; [contradiction|].
  destruct (attempt w c) as [m'| |] eqn:E; try discriminate;
    (destruct Hin as [<-|Hin]; [rewrite E; discriminate|now apply IH]).
Qed.

(** X16. Start-up reaches the loaded state exactly when some candidate
    loads, and the state then holds a model that a candidate loaded; when
    no candidate loads, start-up fails with an HTTP error of status 500
    and no state is produced. *)
Theorem startup_loaded_iff_candidate_loads (w : World) :
  ((exists st : option Model, load_model_on_startup w = Ok st) <->
   (exists (c : candidate) (m : Model),
       In c (load_candidates w) /\ attempt w c = Loaded m)) /\
  (forall st : option Model,
      load_model_on_startup w = Ok st ->
      exists (c : candidate) (m : Model),
        st = Some m /\ In c (load_candidates w) /\ attempt w c = Loaded m) /\
  (forall e : exn,
      load_model_on_startup w = Raise e ->
      exists detail : string, e = HTTPException 500 detail).
Proof.
  unfold load_model_on_startup, _load_model. rewrite load_loop_result.
  destruct (first_loaded w (load_candidates w)) as [m|] eqn:E; cbn [rbind].
  - destruct (first_loaded_Some _ _ _ E) as (c & Hin & Hc).
    repeat split.
    + intros _. now exists c, m.
    + intros _. now exists (Some m).
    + intros st H. injection H as <-. now exists c, m.
    + intros e H. discriminate H.
  - repeat split.
    + intros (st & H). discriminate H.
    + intros (c & m & Hin & Hc). exfalso.
      exact (first_loaded_None _ _ E c m Hin Hc).
    + intros st H. discriminate H.
    + intros e H. injection H as <-. unfold load_failure. now eexists.
Qed.

Lemma startup_loaded_iff_candidate_loads_witness :
  load_model_on_startup overridden_world = Ok (Some coin_model) /\
  exists detail : string,
    HTTPException 500 "Model could not be loaded. Last error: None" =
    HTTPException 500 detail.
Proof.
  split.
  - reflexivity.
  - apply (proj2 (proj2 (startup_loaded_iff_candidate_loads bare_world))).
    reflexivity.
Defined.

(** ** Packaging: what is written and what is left alone *)

Lemma last_ascii_app (s t : string) :
  t <> EmptyString -> last_ascii (s ++ t) = last_ascii t.
Proof.
  intros Ht. induction s as [|c s IH]; [reflexivity|].
  change (String c s ++ t) with (String c (s ++ t)).
  destruct (s ++ t) as [|d r] eqn:E.
  - destruct s; simpl in E; [contradiction|discriminate].
  - exact IH.
Qed.

Lemma string_length_app (s t : string) :
  String.length (s ++ t) = (String.length s + String.length t)%nat.
Proof. induction s as [|c s IH]; simpl; [reflexivity|now rewrite IH]. Qed.

Lemma archive_is_not_model_dir (base_dir output_dir : string) :
  path_join output_dir "bank_marketing_model" ++ ".zip" <>
  path_join (MODEL_DIR base_dir) "bank_marketing_model".
Proof.
  intros H. apply (f_equal last_ascii) in H. unfold path_join in H.
  rewrite last_ascii_app in H by discriminate.
  rewrite (last_ascii_app (MODEL_DIR base_dir)) in H by discriminate.
  discriminate H.
Qed.

Lemma archive_is_not_output_dir (output_dir : string) :
  path_join output_dir "bank_marketing_model" ++ ".zip" <> output_dir.
Proof.
  intros H. apply (f_equal String.length) in H. unfold path_join in H.
  rewrite !string_length_app in H. simpl in H. lia.
Qed.

Lemma package_main_inv (base_dir output_dir : string)
    (files files' : gmap string node) (lines : list string) :
  package_model.main base_dir output_dir files = Ok (files', lines) ->
  files !! path_join (MODEL_DIR base_dir) "bank_marketing_model" = Some Dir /\
  files !! output_dir <> Some File /\
  files' = <[path_join output_dir "bank_marketing_model" ++ ".zip" := File]>
             (<[output_dir := Dir]> files) /\
  lines = ["Packaged model at " ++ path_join output_dir "bank_marketing_model" ++ ".zip"].
Proof.
  unfold package_model.main, path_exists, mkdir_p, make_archive.
  set (model_path := path_join (MODEL_DIR base_dir) "bank_marketing_model").
  cbn [String.eqb Ascii.eqb Bool.eqb].
  destruct (files !! model_path) as [k|] eqn:Hm; cbn [negb]; [|discriminate].
  destruct (files !! output_dir) as [[]|] eqn:Ho; cbn [rbind]; try discriminate.
  - destruct (decide (output_dir = model_path)) as [->|Hne].
    + rewrite lookup_insert_eq. cbn [rbind snd]. intros H. injection H as <- <-.
      rewrite Ho in Hm. injection Hm as <-. repeat split. discriminate.
    + rewrite lookup_insert_ne by exact Hne. rewrite Hm.
      destruct k; cbn [rbind snd]; [|discriminate].
      intros H. injection H as <- <-. repeat split. discriminate.
  - destruct (decide (output_dir = model_path)) as [->|Hne].
    + rewrite Ho in Hm. discriminate.
    + rewrite lookup_insert_ne by exact Hne. rewrite Hm.
      destruct k; cbn [rbind snd]; [|discriminate].
      intros H. injection H as <- <-. repeat split. discriminate.
Qed.

Lemma package_main_written (base_dir output_dir : string)
    (files files' : gmap string node) (lines : list string) :
  package_model.main base_dir output_dir files = Ok (files', lines) ->
  files' !! (path_join output_dir "bank_marketing_model" ++ ".zip") = Some File /\
  files' !! output_dir = Some Dir /\
  files' !! path_join (MODEL_DIR base_dir) "bank_marketing_model" = Some Dir.
Proof.
  intros H. destruct (package_main_inv _ _ _ _ _ H) as (Hm & Ho & -> & _).
  repeat split.
  - apply lookup_insert_eq.
  - rewrite lookup_insert_ne by apply archive_is_not_output_dir.
    apply lookup_insert_eq.
  - rewrite lookup_insert_ne by apply archive_is_not_model_dir.
    destruct (decide (output_dir = path_join (MODEL_DIR base_dir) "bank_marketing_model"))
      as [->|Hne].
    + apply lookup_insert_eq.
    + now rewrite lookup_insert_ne.
Qed.

Lemma package_main_succeeds (base_dir output_dir : string) (files : gmap string node) :
  files !! path_join (MODEL_DIR base_dir) "bank_marketing_model" = Some Dir ->
  files !! output_dir <> Some File ->
  exists (files' : gmap string node) (lines : list string),
    package_model.main base_dir output_dir files = Ok (files', lines).
Proof.
  intros Hm Ho. unfold package_model.main, path_exists, mkdir_p, make_archive.
  rewrite Hm. cbn [negb String.eqb Ascii.eqb Bool.eqb].
  assert (Hroot : <[output_dir := Dir]> files
                    !! path_join (MODEL_DIR base_dir) "bank_marketing_model" = Some Dir).
  { destruct (decide (output_dir = path_join (MODEL_DIR base_dir) "bank_marketing_model"))
      as [->|Hne]; [apply lookup_insert_eq|now rewrite lookup_insert_ne]. }
  destruct (files !! output_dir) as [[]|]; try congruence;
    cbn [rbind]; rewrite Hroot; cbn [rbind snd]; now eexists _, _.
Qed.



(** X18. When the model directory is in place but the output location is
    an existing regular file, packaging raises [FileExistsError] for that
    location and no archive is made. *)
Theorem package_main_output_is_file (base_dir output_dir : string)
    (files : gmap string node) (k : node) :
  files !! path_join (MODEL_DIR base_dir) "bank_marketing_model" = Some k ->
  files !! output_dir = Some File ->
  exists msg : string,
    package_model.main base_dir output_dir files = Raise (FileExistsError msg).
Proof.
  intros Hm Ho. unfold package_model.main, path_exists, mkdir_p.
  rewrite Hm. cbn [negb]. rewrite Ho. now eexists.
Qed.

Lemma package_main_output_is_file_witness :
  exists msg : string,
    package_model.main "/srv/app" "dist" blocked_files = Raise (FileExistsError msg).
Proof.
  apply (package_main_output_is_file "/srv/app" "dist" blocked_files Dir).
  - vm_compute. reflexivity.
  - vm_compute. reflexivity.
Defined.

(** X19. Packaging again after a successful run succeeds and changes
    nothing: the archive is written over itself. *)
Theorem package_main_rerun (base_dir output_dir : string)
    (files files' : gmap string node) (lines : list string) :
  package_model.main base_dir output_dir files = Ok (files', lines) ->
  package_model.main base_dir output_dir files' = Ok (files', lines).
Proof.
  intros H. destruct (package_main_written _ _ _ _ _ H) as (Ht & Ho & Hm).
  destruct (package_main_inv _ _ _ _ _ H) as (_ & _ & _ & ->).
  destruct (package_main_succeeds base_dir output_dir files' Hm) as (f2 & l2 & E).
  { rewrite Ho. discriminate. }
  rewrite E. destruct (package_main_inv _ _ _ _ _ E) as (_ & _ & -> & ->).
  do 2 f_equal.
  rewrite (insert_id files' output_dir Dir Ho).
  now rewrite (insert_id files' _ File Ht).
Qed.

Lemma package_main_rerun_witness :
  exists (files' : gmap string node) (lines : list string),
    package_model.main "/srv/app" "dist" trained_files = Ok (files', lines) /\
    package_model.main "/srv/app" "dist" files' = Ok (files', lines).
Proof.
  destruct (package_model.main "/srv/app" "dist" trained_files)
    as [[files' lines]|e] eqn:E.
  - exists files', lines. split; [reflexivity|].
    exact (package_main_rerun "/srv/app" "dist" trained_files files' lines E).
  - exfalso. vm_compute in E. discriminate E.
Defined.

(** ** Hyperparameter search: ties *)




(** ** The predict handler: what every answer satisfies *)

Lemma predict_inv (st : option Model) (payload : CustomerFeatures) (r : Prediction) :
  predict st payload = Ok r ->
  (exists model : Model, st = Some model) /\
  prediction r = int_of_bool (R_geb (probability r) 0.5).
Proof.
  unfold predict. destruct st as [model|]; [|discriminate].
  rewrite engineer_features_request. cbn [rbind].
  destruct (predict_proba model (engineered_request payload)) as [proba|];
    [|discriminate]. cbn [rbind].
  destruct (getitem proba 0) as [row|]; [|discriminate]. cbn [rbind].
  destruct (getitem row 1) as [p|]; [|discriminate]. cbn [rbind].
  intros H. injection H as <-. simpl. split; [now exists model|reflexivity].
Qed.

(** X21. Every answer the handler returns comes from a loaded model and is
    consistent: its label is 0 or 1, and is 1 exactly when its probability
    is at least 0.5. Hence of two answers, whatever the requests and the
    models, the one with the higher probability never has the lower
    label. *)
Theorem predict_answers_consistent (st1 st2 : option Model)
    (payload1 payload2 : CustomerFeatures) (r1 r2 : Prediction) :
  predict st1 payload1 = Ok r1 ->
  predict st2 payload2 = Ok r2 ->
  st1 <> None /\
  (prediction r1 = 0 \/ prediction r1 = 1) /\
  (prediction r1 = 1 <-> (probability r1 >= 0.5)%R) /\
  ((probability r1 <= probability r2)%R -> prediction r1 <= prediction r2).
Proof.
  intros H1 H2.
  destruct (predict_inv _ _ _ H1) as ((m1 & ->) & E1).
  destruct (predict_inv _ _ _ H2) as (_ & E2).
  split; [discriminate|]. rewrite E1, E2. unfold R_geb.
  destruct (Rge_dec (probability r1) 0.5) as [G1|G1];
    destruct (Rge_dec (probability r2) 0.5) as [G2|G2]; simpl.
  - split; [now right|]. split; [tauto|]. intros _. lia.
  - split; [now right|]. split; [tauto|]. intros Hle. exfalso. lra.
  - split; [now left|]. split; [split; [discriminate|contradiction]|]. intros _. lia.
  - split; [now left|]. split; [split; [discriminate|contradiction]|]. intros _. lia.
Qed.

Lemma predict_answers_consistent_witness :
  exists r : Prediction,
    predict (Some coin_model) sample_request = Ok r /\
    (prediction r = 1 <-> (probability r >= 0.5)%R).
Proof.
  destruct (predict (Some coin_model) sample_request) as [r|e] eqn:E.
  - exists r. split; [reflexivity|].
    destruct (predict_answers_consistent _ _ _ _ r r E E) as (_ & _ & H & _).
    exact H.
  - exfalso. unfold predict in E. rewrite engineer_features_request in E.
    discriminate E.
Defined.

(** ** The model-loading chain: how many calls, and which error *)

Lemma load_loop_calls_length (w : World) (cands : list candidate) :
  forall (last_exception : option exn) (calls : list string),
    (length (snd (load_loop w cands last_exception calls))
     <= length calls + length cands)%nat.
Proof.
  induction cands as [|c rest IH]; intros last calls; simpl.
  - lia.
  - assert (Hcall : forall u : string,
               (length (snd (match mlflow_load_model w u with
                             | Ok m => (Ok m, (calls ++ [u])%list)
                             | Raise exc => load_loop w rest (Some exc) (calls ++ [u])%list
                             end)) <= length calls + S (length rest))%nat).
    { intros u. destruct (mlflow_load_model w u) as [m|e]; simpl.
      - rewrite length_app. simpl. lia.
      - specialize (IH (Some e) (calls ++ [u])%list).
        rewrite length_app in IH. simpl in IH. lia. }
    destruct c as [p|uri]; [|apply Hcall].
    destruct (is_dir (fs w) p); [apply Hcall|].
    destruct (path_exists (fs w) p); [apply Hcall|].
    specialize (IH last calls). lia.
Qed.

(** X22. Start-up makes at most one load call per candidate, and there are
    between three and five candidates: never more than five load calls. *)
Theorem load_model_call_bound (w : World) :
  (length (snd (_load_model w)) <= length (load_candidates w))%nat /\
  (3 <= length (load_candidates w) <= 5)%nat.
Proof.
  split.
  - unfold _load_model.
    pose proof (load_loop_calls_length w (load_candidates w) None []) as H.
    simpl in H. exact H.
  - rewrite load_candidates_order. unfold env_candidate.
    destruct (getenv_nonempty w "MODEL_LOCAL_PATH");
      destruct (getenv_nonempty w "MODEL_URI"); simpl; lia.
Qed.

Lemma load_loop_error_source (w : World) (cands : list candidate) :
  forall (last_exception : option exn) (calls : list string) (e : exn),
    fst (load_loop w cands last_exception calls) = Raise e ->
    (snd (load_loop w cands last_exception calls) = calls /\
     e = load_failure last_exception) \/
    (exists (earlier : list string) (uri : string) (exc : exn),
        snd (load_loop w cands last_exception calls) = (earlier ++ [uri])%list /\
        (length calls < length (earlier ++ [uri]))%nat /\
        mlflow_load_model w uri = Raise exc /\
        e = load_failure (Some exc)).
Proof.
  induction cands as [|c rest IH]; intros last calls e; simpl.
  - intros H. injection H as <-. now left.
  - assert (Hcall : forall u : string,
               let r := match mlflow_load_model w u with
                        | Ok m => (Ok m, (calls ++ [u])%list)
                        | Raise exc => load_loop w rest (Some exc) (calls ++ [u])%list
                        end in
               fst r = Raise e ->
               (snd r = calls /\ e = load_failure last) \/
               (exists (earlier : list string) (uri : string) (exc : exn),
                   snd r = (earlier ++ [uri])%list /\
                   (length calls < length (earlier ++ [uri]))%nat /\
                   mlflow_load_model w uri = Raise exc /\
                   e = load_failure (Some exc))).
    { intros u. destruct (mlflow_load_model w u) as [m|exc] eqn:E; cbn zeta.
      - discriminate.
      - intros H. right.
        destruct (IH (Some exc) (calls ++ [u])%list e H)
          as [[Hs He]|(earlier & uri & exc' & Hs & Hlen & Hl & He)].
        + exists calls, u, exc. rewrite Hs, length_app. simpl.
          repeat split; [lia|exact E|exact He].
        + exists earlier, uri, exc'. rewrite length_app in Hlen. simpl in Hlen.
          repeat split; [exact Hs|lia|exact Hl|exact He]. }
    destruct c as [p|uri]; [|apply Hcall].
    destruct (is_dir (fs w) p); [apply Hcall|].
    destruct (path_exists (fs w) p); [apply Hcall|].
    apply IH.
Qed.

(** X23. When loading fails, the error reports the exception raised by the
    very last load call made; it reports None exactly when no load call
    was made at all. *)
Theorem load_model_error_is_last_call (w : World) (e : exn) :
  fst (_load_model w) = Raise e ->
  (snd (_load_model w) = [] /\
   e = HTTPException 500 "Model could not be loaded. Last error: None") \/
  (exists (earlier : list string) (uri : string) (exc : exn),
      snd (_load_model w) = (earlier ++ [uri])%list /\
      mlflow_load_model w uri = Raise exc /\
      e = HTTPException 500
            ("Model could not be loaded. Last error: " ++ exn_str exc)).
Proof.
  unfold _load_model. intros H.
  destruct (load_loop_error_source w (load_candidates w) None [] e H)
    as [[Hs He]|(earlier & uri & exc & Hs & _ & Hl & He)].
  - left. split; [exact Hs|exact He].
  - right. exists earlier, uri, exc. split; [exact Hs|]. split; [exact Hl|exact He].
Qed.

Lemma load_model_error_is_last_call_witness :
  snd (_load_model bare_world) = [] /\
  HTTPException 500 "Model could not be loaded. Last error: None" =
  HTTPException 500 "Model could not be loaded. Last error: None" \/
  (exists (earlier : list string) (uri : string) (exc : exn),
      snd (_load_model bare_world) = (earlier ++ [uri])%list /\
      mlflow_load_model bare_world uri = Raise exc /\
      HTTPException 500 "Model could not be loaded. Last error: None" =
      HTTPException 500
        ("Model could not be loaded. Last error: " ++ exn_str exc)).
Proof.
  apply (load_model_error_is_last_call bare_world). reflexivity.
Defined.

(** ** Cleaning one row at a time *)

Lemma replace_col_row (tok : string) (i : nat) (c : column) :
  replace_col tok (col_row i c) = col_row i (replace_col tok c).
Proof.
  destruct c as [l|l|l]; simpl; try reflexivity.
  now rewrite list_lookup_fmap, option_list_fmap.
Qed.

Lemma df_replace_row_of (tok : string) (i : nat) (df : DataFrame) :
  df_replace tok (row_of i df) = row_of i (df_replace tok df).
Proof.
  unfold df_replace, row_of. rewrite !map_map. apply map_ext.
  intros [n c]. simpl. now rewrite replace_col_row.
Qed.

Lemma astype_str_row (float_repr : R -> string) (i : nat) (c : column) :
  astype_str float_repr (col_row i c) = col_row i (astype_str float_repr c).
Proof.
  destruct c as [l|l|l]; simpl; now rewrite list_lookup_fmap, option_list_fmap.
Qed.

Lemma str_strip_row (i : nat) (c c' : column) :
  str_strip c = Ok c' -> str_strip (col_row i c) = Ok (col_row i c').
Proof.
  destruct c as [l|l|l]; simpl; intros H; try discriminate.
  injection H as <-. simpl. now rewrite list_lookup_fmap, option_list_fmap.
Qed.

(** X24. Cleaning is row-independent: when it succeeds on a table, it
    succeeds on the single-row table of any of its rows and gives that
    row of the cleaned table. *)
Theorem clean_dataset_row_independent (float_repr : R -> string)
    (df cleaned row : DataFrame) (i : nat) :
  clean_dataset float_repr df = Ok cleaned ->
  iloc_row i df = Ok row ->
  clean_dataset float_repr row = Ok (row_of i cleaned) /\
  forall n : string, cell (row_of i cleaned) n 0 = cell cleaned n i.
Proof.
  intros H Hrow. apply iloc_row_inv in Hrow as [_ ->].
  split; [|intros n; apply cell_row_of].
  unfold clean_dataset in *.
  destruct (get_col "y" (df_replace UNKNOWN_TOKEN df)) as [y|] eqn:Hy; [|discriminate].
  cbn [rbind] in H.
  destruct (str_strip (astype_str float_repr y)) as [y'|] eqn:Hs; [|discriminate].
  cbn [rbind] in H. injection H as <-.
  rewrite df_replace_row_of, (get_col_row_of i _ _ _ Hy). cbn [rbind].
  rewrite astype_str_row, (str_strip_row i _ _ Hs). cbn [rbind].
  now rewrite set_col_row_of.
Qed.

Lemma clean_dataset_row_independent_witness :
  exists cleaned : DataFrame,
    clean_dataset repr_nan raw_sample = Ok cleaned /\
    clean_dataset repr_nan (row_of 1 raw_sample) = Ok (row_of 1 cleaned).
Proof.
  destruct (clean_dataset repr_nan raw_sample) as [cleaned|e] eqn:E.
  - exists cleaned. split; [reflexivity|].
    exact (proj1 (clean_dataset_row_independent repr_nan raw_sample cleaned
                    (row_of 1 raw_sample) 1%nat E eq_refl)).
  - exfalso. discriminate E.
Defined.
